(** * papass: dice-driven sampling, passphrase and password generators

    A shallow embedding of the [papass] package:
    - [papass/random_source/registry.py]  (the table of randomness sources),
    - [papass/passphrase_generator.py]    (phrases drawn from a wordlist),
    - [papass/password_generator.py]      (passwords drawn from an alphabet),
    - [papass/commands.py]                (the two generation calls),
    together with the dice frame, the reduction of a batch of rolls and the
    default [choice] of the random-source base class, which the package keeps
    in modules that are described by its specification only.

    Conventions.  Python integers are [Z], strings are [string] (one
    character per byte, compared by character code as Python compares
    them), a [set] is a [gset], a [dict] whose order matters is an
    association list.  A Python float is read as the real number its
    expression denotes (rounding is not modelled).  Exceptions are values of [PyError]; code that uses a random
    source runs in a state-and-error monad over a [World] that records every
    call made to the source. *)

From Stdlib Require Import ZArith QArith Reals Lra Lia List Sorted.
From stdpp Require Import base tactics option list sets gmap strings sorting.

Local Open Scope Z_scope.

(* ===================================================================== *)
(** ** Python values, exceptions and sequences *)
(* ===================================================================== *)

Inductive PyError : Type :=
| AssertionError (msg : string)
| IndexError
| KeyError (key : string)
| ValueError
| EOFError
| StopIteration.

Inductive PyValue : Type :=
| PyStr (s : string)
| PyFloat (x : R)
| PyBool (b : bool).

(** [assert cond, msg] *)
Definition py_assert (cond : bool) (msg : string) : PyError + unit :=
  if cond then inr tt else inl (AssertionError msg).

(** Sequencing of computations that may raise. *)
Definition ebind {A B} (c : PyError + A) (k : A → PyError + B) : PyError + B :=
  match c with
  | inl e => inl e
  | inr a => k a
  end.

Notation "'try!' x := c 'in' k" := (ebind c (λ x, k))
  (at level 10, x pattern, c at level 100, k at level 200).

Fixpoint emapM {A B} (f : A → PyError + B) (l : list A) : PyError + list B :=
  match l with
  | [] => inr []
  | a :: l' => try! b := f a in try! bs := emapM f l' in inr (b :: bs)
  end.

(** [len(s)] *)
Definition len {A} (l : list A) : Z := Z.of_nat (length l).

(** [seq[i]]: negative indices count from the end, anything else out of
    range raises [IndexError]. *)
Definition py_index {A} (l : list A) (i : Z) : PyError + A :=
  let j := if i <? 0 then len l + i else i in
  if j <? 0 then inl IndexError
  else match l !! Z.to_nat j with
       | Some a => inr a
       | None => inl IndexError
       end.

(** [range(n)] *)
Definition py_range (n : Z) : list Z := seqZ 0 n.

(** [sep.join(parts)] *)
Definition str_join (sep : string) (parts : list string) : string :=
  String.concat sep parts.

(** The characters of a string, as Python iterates it: one-character
    strings. *)
Fixpoint str_iter (s : string) : list string :=
  match s with
  | EmptyString => []
  | String c s' => String c EmptyString :: str_iter s'
  end.

(** [math.log2] on the reals; Python raises [ValueError] outside the domain. *)
Definition log2 (x : R) : R := (ln x / ln 2)%R.

Definition math_log2 (n : Z) : PyError + R :=
  if n <=? 0 then inl ValueError else inr (log2 (IZR n)).

(* ===================================================================== *)
(** ** The world of a generation call: a source and the calls made to it *)
(* ===================================================================== *)

Inductive RngEvent : Type :=
| CallRandbelow (upper : Z)
| CallChoice (size : Z).

Record World (Src : Type) : Type := mkWorld {
  source : Src;
  calls : list RngEvent
}.
Arguments mkWorld {Src} _ _.
Arguments source {Src} _.
Arguments calls {Src} _.

Definition M (Src A : Type) : Type := World Src → (PyError + A) * World Src.

Definition ret {Src A} (a : A) : M Src A := λ w, (inr a, w).

Definition bind {Src A B} (c : M Src A) (k : A → M Src B) : M Src B :=
  λ w, match c w with
       | (inl e, w') => (inl e, w')
       | (inr a, w') => k a w'
       end.

Definition lift {Src A} (c : PyError + A) : M Src A := λ w, (c, w).

Definition log_call {Src} (ev : RngEvent) : M Src unit :=
  λ w, (inr tt, mkWorld (source w) (calls w ++ [ev])).

Notation "'do!' x := c 'in' k" := (bind c (λ x, k))
  (at level 10, x pattern, c at level 100, k at level 200).

Fixpoint mapM {Src A B} (f : A → M Src B) (l : list A) : M Src (list B) :=
  match l with
  | [] => ret []
  | a :: l' => do! b := f a in do! bs := mapM f l' in ret (b :: bs)
  end.

(* ===================================================================== *)
(** ** The random-source base class *)
(* ===================================================================== *)

(** [RngBase]: a concrete source supplies [randbelow] only.  [Src] is what
    the source consumes (the platform's entropy, or the operator's lines). *)
Class RngBase (Rng Src : Type) : Type :=
  randbelow_impl : Rng → Z → Src → (PyError + Z) * Src.

Section RngBaseMethods.
Context {Rng Src : Type} `{!RngBase Rng Src}.

(** [rng.randbelow(upper)], recorded in the world. *)
Definition randbelow (rng : Rng) (upper : Z) : M Src Z :=
  λ w, let '(r, s') := randbelow_impl rng upper (source w) in
       (r, mkWorld s' (calls w ++ [CallRandbelow upper])).

(** Modelled from the spec: the default [RngBase.choice] (module
    [papass.random.base], section 4.4 of the specification):
    [sequence[randbelow(len(sequence))]]. *)
Definition choice {A} (rng : Rng) (sequence : list A) : M Src A :=
  do! _ := log_call (CallChoice (len sequence)) in
  do! i := randbelow rng (len sequence) in
  lift (py_index sequence i).

(** [n] successive elements drawn with [choice], in draw order. *)
Fixpoint draws {A} (rng : Rng) (sequence : list A) (n : nat) : M Src (list A) :=
  match n with
  | O => ret []
  | S n' =>
      do! x := choice rng sequence in
      do! xs := draws rng sequence n' in
      ret (x :: xs)
  end.

(** The values of [n] successive calls [randbelow(upper)] on a source, when
    none of them raises. *)
Fixpoint rng_outputs (rng : Rng) (upper : Z) (n : nat) (s : Src) : option (list Z) :=
  match n with
  | O => Some []
  | S n' =>
      match randbelow_impl rng upper s with
      | (inl _, _) => None
      | (inr v, s') =>
          match rng_outputs rng upper n' s' with
          | Some vs => Some (v :: vs)
          | None => None
          end
      end
  end.

End RngBaseMethods.

(* ===================================================================== *)
(** ** The dice source: frame, reduction of a batch, rejection loop *)
(* ===================================================================== *)

Module Dice.

Record DiceFrame : Type := mkDiceFrame {
  required_num_rolls : Z;
  upper_multiple : Z
}.

(** [num_sides ** num_rolls], the number of outcomes of a batch of rolls. *)
Definition upper_dice (num_sides num_rolls : Z) : Z := num_sides ^ num_rolls.

(** [(upper_dice // upper) * upper], as the test of the frame computes it. *)
Definition usable (num_sides upper num_rolls : Z) : Z :=
  (upper_dice num_sides num_rolls / upper) * upper.

(** The probability that one batch of [num_rolls] rolls is accepted. *)
Definition success_probability (num_sides upper num_rolls : Z) : Q :=
  (inject_Z (usable num_sides upper num_rolls)
   / inject_Z (upper_dice num_sides num_rolls))%Q.

(** Modelled from the spec: the loop of [compute_dice_frame] (module
    [papass.random.dice], section 4.1 of the specification).  It starts at
    one roll and adds a roll until the probability reaches the required
    one; [fuel] bounds the number of iterations. *)
Fixpoint compute_dice_frame_loop (fuel : nat) (num_sides upper : Z)
    (required_success_probability : Q) (num_rolls : Z) : option DiceFrame :=
  match fuel with
  | O => None
  | S fuel' =>
      let domain := num_sides ^ num_rolls in
      let usable := (domain / upper) * upper in
      let probability := (inject_Z usable / inject_Z domain)%Q in
      if Qle_bool required_success_probability probability
      then Some (mkDiceFrame num_rolls usable)
      else compute_dice_frame_loop fuel' num_sides upper
             required_success_probability (num_rolls + 1)
  end.

(** A number of iterations that suffices under the preconditions of the
    frame: with [log2_up (upper * den p)] rolls the rejected part of the
    domain is at most a [1 / den p] fraction of it. *)
Definition enough_rolls (upper : Z) (p : Q) : nat :=
  Z.to_nat (Z.log2_up (upper * Zpos (Qden p))).

(** Modelled from the spec: [compute_dice_frame(num_sides, upper,
    required_success_probability)]. *)
Definition compute_dice_frame (num_sides upper : Z)
    (required_success_probability : Q) : option DiceFrame :=
  compute_dice_frame_loop (enough_rolls upper required_success_probability)
    num_sides upper required_success_probability 1.

(** Modelled from the spec: [rolls_to_value] (module [papass.utils], step
    (c) of section 4.2): each roll minus one is a digit in base
    [num_sides], most significant first. *)
Fixpoint rolls_to_value (num_sides : Z) (rolls : list Z) : Z :=
  match rolls with
  | [] => 0
  | r :: rest => (r - 1) * num_sides ^ len rest + rolls_to_value num_sides rest
  end.

(** Step (b) of section 4.2: the batch has the requested length and every
    roll is a side of the dice. *)
Definition valid_batch (num_sides num_rolls : Z) (batch : list Z) : bool :=
  (len batch =? num_rolls)
  && forallb (λ r, (1 <=? r) && (r <=? num_sides)) batch.

(** Steps (a)-(d) of section 4.2 over the lines the operator will type
    (already split into integers).  A malformed line is asked again, a
    rejected batch is rolled again; [None] when the operator stops typing. *)
Fixpoint randbelow_loop (num_sides upper : Z) (plan : DiceFrame)
    (lines : list (list Z)) : option Z * list (list Z) :=
  match lines with
  | [] => (None, [])
  | batch :: rest =>
      if valid_batch num_sides (required_num_rolls plan) batch then
        let value := rolls_to_value num_sides batch in
        if value <? upper_multiple plan then (Some (value mod upper), rest)
        else randbelow_loop num_sides upper plan rest
      else randbelow_loop num_sides upper plan rest
  end.

Record DiceRng : Type := mkDiceRng {
  _num_sides : Z;
  _required_success_probability : Q
}.

(** Modelled from the spec: [DiceRng.randbelow] (module
    [papass.random.dice], section 4.2 of the specification). *)
Definition DiceRng_randbelow (self : DiceRng) (upper : Z)
    (lines : list (list Z)) : option Z * list (list Z) :=
  match compute_dice_frame (_num_sides self) upper
          (_required_success_probability self) with
  | None => (None, lines)
  | Some plan => randbelow_loop (_num_sides self) upper plan lines
  end.

(** The dice source as a random source: it consumes the operator's lines and
    raises [EOFError] when they end. *)
#[global] Instance DiceRng_RngBase : RngBase DiceRng (list (list Z)) :=
  λ self upper lines,
    match DiceRng_randbelow self upper lines with
    | (Some v, rest) => (inr v, rest)
    | (None, rest) => (inl EOFError, rest)
    end.

End Dice.

(* ===================================================================== *)
(** ** random_source/registry.py *)
(* ===================================================================== *)

Module Registry.

Inductive RngCls : Type := SystemRng | DiceRng.

(** [_rng_registry]: for each source name, the class of the generator and
    the map from its [__init__] options to the command line options.  A
    [dict] keeps insertion order, which [default_randomness_source] uses. *)
Definition _rng_registry : list (string * (RngCls * list (string * string))) :=
  [ ("system", (SystemRng, []));
    ("dice", (DiceRng, [("num_sides", "dice_sides")])) ].

(** [list(d.keys())] *)
Definition keys {V} (d : list (string * V)) : list string := map fst d.

(** [d[k]] on a [dict] kept as an association list. *)
Fixpoint dict_get {V} (d : list (string * V)) (k : string) : PyError + V :=
  match d with
  | [] => inl (KeyError k)
  | (k', v) :: d' => if bool_decide (k' = k) then inr v else dict_get d' k
  end.

(** [k in d] *)
Definition dict_mem {V} (k : string) (d : list (string * V)) : bool :=
  bool_decide (k ∈ keys d).

Definition default_randomness_source : PyError + string :=
  py_index (keys _rng_registry) 0.

Definition available_random_sources : list string := keys _rng_registry.

Definition available_randomness_sources_str : string :=
  str_join ", "
    (map (λ s, "'" +:+ s +:+ "'") available_random_sources).

Section GetRng.
Context {Rng : Type}.
(** The constructors of the generator classes ([SystemRng()] and
    [DiceRng(num_sides=...)]), applied to keyword arguments. *)
Variable rng_new : RngCls → list (string * Z) → PyError + Rng.

Definition get_rng (random_source : string) (possible_options : gmap string Z)
    : PyError + Rng :=
  try! _ := py_assert (dict_mem random_source _rng_registry)
              ("Unknown random source `" +:+ random_source +:+ "`. Use one of "
               +:+ available_randomness_sources_str +:+ ".") in
  try! entry := dict_get _rng_registry random_source in
  let '(RngCls, args) := entry in
  try! kwargs := emapM (λ item,
                    match possible_options !! item.2 with
                    | Some v => inr (item.1, v)
                    | None => inl (KeyError item.2)
                    end) args in
  rng_new RngCls kwargs.

End GetRng.

End Registry.

(* ===================================================================== *)
(** ** passphrase_generator.py *)
(* ===================================================================== *)

Module PassPhraseGenerator.

Record PassPhraseResult : Type := mkPassPhraseResult {
  phrase : string;
  entropy : R;
  entropy_is_guaranteed : bool
}.

(** [getattr(result, name)] on the dataclass. *)
Definition PassPhraseResult_getattr (r : PassPhraseResult) (name : string)
    : option PyValue :=
  if bool_decide (name = "phrase") then Some (PyStr (phrase r))
  else if bool_decide (name = "entropy") then Some (PyFloat (entropy r))
  else if bool_decide (name = "entropy_is_guaranteed")
       then Some (PyBool (entropy_is_guaranteed r))
  else None.

Record t (Rng : Type) : Type := mk {
  _wordlist : list string;
  _rng : Rng;
  _delimiter : string
}.
Arguments mk {Rng} _ _ _.
Arguments _wordlist {Rng} _.
Arguments _rng {Rng} _.
Arguments _delimiter {Rng} _.

Section Methods.
Context {Rng Src : Type} `{!RngBase Rng Src}.

Definition __init__ (wordlist : list string) (rng : Rng) (delimiter : string)
    : PyError + t Rng :=
  try! _ := py_assert (bool_decide (String.length delimiter ≤ 1)%nat)
              "--delimiter must be single character or empty." in
  inr (mk wordlist rng delimiter).

Definition _choose_word (self : t Rng) (_index : Z) : M Src string :=
  choice (_rng self) (_wordlist self).

Definition _entropy_per_word (self : t Rng) : PyError + R :=
  math_log2 (len (_wordlist self)).

(** [set().union] of all the words: the letters occurring in the words. *)
Definition _word_alphabet (self : t Rng) : gset string :=
  ⋃ (map (λ word, list_to_set (str_iter word)) (_wordlist self)).

Definition _entropy_is_guaranteed (self : t Rng) (count : Z) : PyError + bool :=
  try! _ := py_assert (bool_decide (String.length (_delimiter self) ≤ 1)%nat) "" in
  if count <=? 1 then inr true
  else if bool_decide (_delimiter self = "") then inr false
  else if bool_decide (_delimiter self ∈ _word_alphabet self) then inr false
  else inr true.

Definition get_phrase (self : t Rng) (count : Z) : M Src PassPhraseResult :=
  do! words := mapM (λ i, _choose_word self (i + 1)) (py_range count) in
  do! entropy_per_word := lift (_entropy_per_word self) in
  do! guaranteed := lift (_entropy_is_guaranteed self count) in
  ret (mkPassPhraseResult (str_join (_delimiter self) words)
         (IZR count * entropy_per_word)%R guaranteed).

End Methods.

End PassPhraseGenerator.

(* ===================================================================== *)
(** ** password_generator.py *)
(* ===================================================================== *)

Module PasswordGenerator.

Record PasswordResult : Type := mkPasswordResult {
  password : string;
  entropy : R
}.

(** [getattr(result, name)] on the dataclass. *)
Definition PasswordResult_getattr (r : PasswordResult) (name : string)
    : option PyValue :=
  if bool_decide (name = "password") then Some (PyStr (password r))
  else if bool_decide (name = "entropy") then Some (PyFloat (entropy r))
  else None.

Record t (Rng : Type) : Type := mk {
  _alphabet : list string;
  _rng : Rng
}.
Arguments mk {Rng} _ _.
Arguments _alphabet {Rng} _.
Arguments _rng {Rng} _.

(** [list(sorted(set(alphabet)))] *)
Definition sorted_set (alphabet : list string) : list string :=
  merge_sort String.le (elements (list_to_set alphabet : gset string)).

Section Methods.
Context {Rng Src : Type} `{!RngBase Rng Src}.

Definition __init__ (alphabet : list string) (rng : Rng) : PyError + t Rng :=
  try! _ := py_assert (0 <? len alphabet) "Alphabet must not be empty." in
  try! _ := py_assert (forallb (λ c, (String.length c =? 1)%nat) alphabet)
              "Alphabet must be a list of characters (length 1)." in
  inr (mk (sorted_set alphabet) rng).

Definition _choose_char (self : t Rng) : M Src string :=
  choice (_rng self) (_alphabet self).

Definition _entropy_per_char (self : t Rng) : PyError + R :=
  math_log2 (len (_alphabet self)).

Definition generate (self : t Rng) (length : Z) : M Src PasswordResult :=
  do! chars := mapM (λ _, _choose_char self) (py_range length) in
  do! entropy_per_char := lift (_entropy_per_char self) in
  ret (mkPasswordResult (str_join "" chars) (IZR length * entropy_per_char)%R).

End Methods.

End PasswordGenerator.

(* ===================================================================== *)
(** ** commands.py: the two generation calls *)
(* ===================================================================== *)

Module Commands.

Section Calls.
Context {Rng Src : Type} `{!RngBase Rng Src}.
Variable rng_new : Registry.RngCls → list (string * Z) → PyError + Rng.

(** The body of the [try] of [pp], with [wordlist] as [WordList.from_file]
    returned it.  The command names the class [PassphraseGenerator] and its
    method [generate]; the class of passphrase_generator.py is the one
    meant. *)
Definition pp_generate (length : Z) (randomness_source : string)
    (wordlist : list string) (delimiter : string) (dice_sides : Z)
    : M Src PassPhraseGenerator.PassPhraseResult :=
  do! rng := lift (Registry.get_rng rng_new randomness_source
                     {[ "dice_sides" := dice_sides ]}) in
  do! passphrase_generator :=
        lift (PassPhraseGenerator.__init__ wordlist rng delimiter) in
  PassPhraseGenerator.get_phrase passphrase_generator length.

(** The body of the [try] of [pw], with [alpha] the string that the
    include, preset and exclude options leave.  [length] is [None] when
    the option is missing; [assert length] also refuses [0]. *)
Definition pw_generate (length : option Z) (randomness_source : string)
    (dice_sides : Z) (alpha : string)
    : M Src PasswordGenerator.PasswordResult :=
  do! _ := lift (py_assert (match length with
                            | Some n => negb (n =? 0)
                            | None => false
                            end) "Missing option --length.") in
  do! _ := lift (py_assert (negb (bool_decide (alpha = "")))
             "No alphabet given. Did you forget --alphabet or alphabet-names?") in
  do! rng := lift (Registry.get_rng rng_new randomness_source
                     {[ "dice_sides" := dice_sides ]}) in
  do! password_generator :=
        lift (PasswordGenerator.__init__ (str_iter alpha) rng) in
  PasswordGenerator.generate password_generator (default 0 length).

End Calls.

End Commands.

(* ===================================================================== *)
(** ** A scripted source, for running the generators on known draws *)
(* ===================================================================== *)

(** A source that replays a fixed list of values, one per call, whatever
    the bound: the generators can be run on any sequence of draws. *)
Inductive ScriptedRng : Type := Scripted.

#[global] Instance ScriptedRng_RngBase : RngBase ScriptedRng (list Z) :=
  λ _ _ script,
    match script with
    | [] => (inl StopIteration, [])
    | v :: script' => (inr v, script')
    end.

Definition scripted_new (cls : Registry.RngCls) (kwargs : list (string * Z))
    : PyError + ScriptedRng := inr Scripted.

(* ===================================================================== *)
(** ** Notions used to state the properties *)
(* ===================================================================== *)

(** The test of the frame loop: the required probability is reached with
    [num_rolls] rolls. *)
Definition meets (num_sides upper : Z) (p : Q) (num_rolls : Z) : bool :=
  Qle_bool p (Dice.success_probability num_sides upper num_rolls).

(** The character [c] occurs inside [word]. *)
Fixpoint char_occurs (c : Ascii.ascii) (word : string) : bool :=
  match word with
  | EmptyString => false
  | String c' word' => bool_decide (c = c') || char_occurs c word'
  end.

(** The entropy guarantee as the specification words it (section 4.5):
    true for at most one word; false for the empty delimiter; false when the
    delimiter character occurs inside a word; true otherwise. *)
Definition entropyIsGuaranteed (wordlist : list string) (delimiter : string)
    (count : Z) : bool :=
  if count <=? 1 then true
  else match delimiter with
       | EmptyString => false
       | String c _ => if existsb (char_occurs c) wordlist then false else true
       end.

(** The elements of [sequence] at the drawn positions [vs]. *)
Definition picks {A} (sequence : list A) (vs : list Z) : PyError + list A :=
  emapM (py_index sequence) vs.

(** The calls that [k] draws over a sequence of [size] elements record. *)
Definition draw_calls (size : Z) (k : nat) : list RngEvent :=
  concat (replicate k [CallChoice size; CallRandbelow size]).

Import (notations) Stdlib.Strings.Ascii.

(** [s.split(sep)] for a separator of one character. *)
Fixpoint str_split (sep : Ascii.ascii) (s : string) : list string :=
  match s with
  | EmptyString => [EmptyString]
  | String c s' =>
      if bool_decide (c = sep) then EmptyString :: str_split sep s'
      else match str_split sep s' with
           | [] => [String c EmptyString]
           | word :: words => String c word :: words
           end
  end.

(** ["".join(c for c in s if keep(c))] *)
Fixpoint str_filter (keep : Ascii.ascii → bool) (s : string) : string :=
  match s with
  | EmptyString => EmptyString
  | String c s' =>
      if keep c then String c (str_filter keep s') else str_filter keep s'
  end.

(** The truth value of an optional string: [None] and the empty string are
    false. *)
Definition truthy (s : option string) : bool :=
  match s with
  | Some (String _ _) => true
  | _ => false
  end.

(* ===================================================================== *)
(** ** commands.py: the whole body of the [try] of [pw] *)
(* ===================================================================== *)

Module CommandLine.

Section Pw.
Context {Rng Src : Type} `{!RngBase Rng Src}.
Variable rng_new : Registry.RngCls → list (string * Z) → PyError + Rng.
(** [alphabet_from_charset_names] of the module papass.alphabet, which
    turns preset names into the string of their characters. *)
Variable alphabet_from_charset_names : list string → PyError + string.

(** The alphabet that the include, preset and exclude options leave. *)
Definition pw_alpha (alpha_include alpha_preset alpha_exclude : option string)
    : PyError + string :=
  let alpha := if truthy alpha_include then default "" alpha_include else "" in
  try! alpha :=
    (if truthy alpha_preset then
       try! preset := alphabet_from_charset_names
                        (str_split ","%char (default "" alpha_preset)) in
       inr (alpha +:+ preset)
     else inr alpha) in
  inr (if truthy alpha_exclude then
         str_filter (λ c, negb (char_occurs c (default "" alpha_exclude))) alpha
       else alpha).

(** The body of the [try] of [pw], line by line. *)
Definition pw_try (length : option Z) (randomness_source : string)
    (dice_sides : Z) (alpha_include alpha_preset alpha_exclude : option string)
    : M Src PasswordGenerator.PasswordResult :=
  do! _ := lift (py_assert (match length with
                            | Some n => negb (n =? 0)
                            | None => false
                            end) "Missing option --length.") in
  do! alpha := lift (pw_alpha alpha_include alpha_preset alpha_exclude) in
  do! _ := lift (py_assert (negb (bool_decide (alpha = "")))
             "No alphabet given. Did you forget --alphabet or alphabet-names?") in
  do! rng := lift (Registry.get_rng rng_new randomness_source
                     {[ "dice_sides" := dice_sides ]}) in
  do! password_generator :=
        lift (PasswordGenerator.__init__ (str_iter alpha) rng) in
  PasswordGenerator.generate password_generator (default 0 length).

End Pw.

End CommandLine.

(* ===================================================================== *)
(** * Properties *)
(* ===================================================================== *)

(** ** The dice frame *)

Section DiceFrameFacts.
Import Dice.
Variables (num_sides upper : Z) (p : Q).

Lemma loop_unfold fuel n :
  compute_dice_frame_loop (S fuel) num_sides upper p n =
  if meets num_sides upper p n
  then Some (mkDiceFrame n (usable num_sides upper n))
  else compute_dice_frame_loop fuel num_sides upper p (n + 1).
Proof. reflexivity. Qed.

(** What a returned frame tells: the loop stopped at the first number of
    rolls, from [n] on, that meets the required probability. *)
Lemma loop_sound fuel : ∀ n plan,
  compute_dice_frame_loop fuel num_sides upper p n = Some plan →
  n ≤ required_num_rolls plan
  ∧ upper_multiple plan = usable num_sides upper (required_num_rolls plan)
  ∧ meets num_sides upper p (required_num_rolls plan) = true
  ∧ ∀ k, n ≤ k < required_num_rolls plan → meets num_sides upper p k = false.
Proof.
  induction fuel as [|fuel IH]; intros n plan Hrun; [discriminate|].
  rewrite loop_unfold in Hrun. destruct (meets num_sides upper p n) eqn:Hn.
  - injection Hrun as <-. simpl. repeat split; [lia|done|intros k ?; lia].
  - destruct (IH _ _ Hrun) as (Hle & Hmul & Hgood & Hbelow).
    repeat split; [lia|done|done|].
    intros k Hk. destruct (decide (k = n)) as [->|]; [done|]. apply Hbelow. lia.
Qed.

(** The loop returns as soon as some number of rolls within the fuel meets
    the required probability. *)
Lemma loop_complete fuel : ∀ n k,
  n ≤ k < n + Z.of_nat fuel → meets num_sides upper p k = true →
  ∃ plan, compute_dice_frame_loop fuel num_sides upper p n = Some plan.
Proof.
  induction fuel as [|fuel IH]; intros n k Hk Hgood; [lia|].
  rewrite loop_unfold. destruct (meets num_sides upper p n) eqn:Hn; [eauto|].
  apply (IH (n + 1) k); [|done].
  destruct (decide (k = n)) as [->|]; [congruence|lia].
Qed.

(** The comparison of rationals, on integers. *)
Lemma meets_iff n :
  0 < upper_dice num_sides n →
  meets num_sides upper p n = true ↔
  Qnum p * upper_dice num_sides n ≤ usable num_sides upper n * Zpos (Qden p).
Proof.
  intros Hd. unfold meets, success_probability. rewrite Qle_bool_iff.
  destruct (upper_dice num_sides n) as [|d|d] eqn:E; [lia| |lia].
  unfold Qle, Qdiv, Qmult, Qinv, inject_Z. simpl.
  rewrite Pos.mul_1_l. lia.
Qed.

Lemma meets_false_lt n :
  meets num_sides upper p n = false →
  (success_probability num_sides upper n < p)%Q.
Proof.
  unfold meets. intros Hn. apply Qnot_le_lt. rewrite <- Qle_bool_iff. congruence.
Qed.

Hypothesis Hsides : 2 ≤ num_sides.
Hypothesis Hupper : 2 ≤ upper.
Hypothesis Hp : (0 < p < 1)%Q.

Lemma upper_dice_pos n : 0 ≤ n → 0 < upper_dice num_sides n.
Proof. intros. unfold upper_dice. apply Z.pow_pos_nonneg; lia. Qed.

Lemma usable_bounds n :
  0 ≤ n →
  upper_dice num_sides n - upper < usable num_sides upper n ≤ upper_dice num_sides n.
Proof.
  intros Hn. unfold usable.
  pose proof (Z.mod_pos_bound (upper_dice num_sides n) upper ltac:(lia)).
  pose proof (Z.div_mod (upper_dice num_sides n) upper ltac:(lia)). lia.
Qed.

Lemma Qnum_lt_den : 0 < Qnum p < Zpos (Qden p).
Proof. destruct Hp as [H0 H1]. unfold Qlt in *. simpl in *. lia. Qed.

(** Enough rolls always exist: with [log2_up (upper * den p)] of them the
    domain is at least [upper * den p], so less than a [1 / den p] fraction
    of it is rejected. *)
Lemma meets_enough :
  let k := Z.log2_up (upper * Zpos (Qden p)) in
  1 ≤ k ∧ meets num_sides upper p k = true.
Proof.
  intros k. pose proof Qnum_lt_den as Hnd.
  assert (Hk : 1 ≤ k).
  { unfold k. change 1 with (Z.log2_up 2). apply Z.log2_up_le_mono. nia. }
  split; [done|]. apply meets_iff; [apply upper_dice_pos; lia|].
  pose proof (usable_bounds k ltac:(lia)) as Hu.
  assert (upper * Zpos (Qden p) ≤ upper_dice num_sides k).
  { unfold upper_dice. trans (2 ^ k).
    - apply Z.log2_up_spec. nia.
    - apply Z.pow_le_mono_l. lia. }
  nia.
Qed.

Lemma compute_dice_frame_returns :
  ∃ plan, compute_dice_frame num_sides upper p = Some plan.
Proof.
  destruct meets_enough as [Hk Hgood].
  apply (loop_complete _ 1 _) with (2 := Hgood).
  unfold enough_rolls. lia.
Qed.

(** No roll at all never suffices: the only outcome is below [upper]. *)
Lemma meets_zero_rolls : meets num_sides upper p 0 = false.
Proof.
  apply not_true_is_false. rewrite meets_iff by (apply upper_dice_pos; lia).
  unfold usable, upper_dice. simpl. rewrite Z.div_small by lia.
  pose proof Qnum_lt_den. lia.
Qed.

(** The frame that is returned, in full. *)
Lemma compute_dice_frame_spec :
  ∃ plan, compute_dice_frame num_sides upper p = Some plan
    ∧ 1 ≤ required_num_rolls plan
    ∧ upper_multiple plan = usable num_sides upper (required_num_rolls plan)
    ∧ meets num_sides upper p (required_num_rolls plan) = true
    ∧ ∀ k, 0 ≤ k < required_num_rolls plan → meets num_sides upper p k = false.
Proof.
  destruct compute_dice_frame_returns as [plan Hplan]. exists plan.
  destruct (loop_sound _ _ _ Hplan) as (Hle & Hmul & Hgood & Hbelow).
  repeat split; [done..|].
  intros k Hk. destruct (decide (k = 0)) as [->|].
  - apply meets_zero_rolls.
  - apply Hbelow. lia.
Qed.

End DiceFrameFacts.

(** C1.  For a dice of 2 to 20 sides, a bound from 2 to a million and a
    required probability strictly between 0 and 1, [compute_dice_frame]
    returns a frame whose number of rolls is minimal: the success
    probability with that many rolls is at least the required one, with one
    roll less it is strictly below it, and so it is with any smaller number
    of rolls. *)
Theorem compute_dice_frame_minimal (num_sides upper : Z) (p : Q) :
  2 ≤ num_sides ≤ 20 → 2 ≤ upper ≤ 10 ^ 6 → (0 < p < 1)%Q →
  ∃ plan, Dice.compute_dice_frame num_sides upper p = Some plan
    ∧ 1 ≤ Dice.required_num_rolls plan
    ∧ (p <= Dice.success_probability num_sides upper
              (Dice.required_num_rolls plan))%Q
    ∧ (Dice.success_probability num_sides upper
         (Dice.required_num_rolls plan - 1) < p)%Q
    ∧ ∀ k, 0 ≤ k < Dice.required_num_rolls plan →
           (Dice.success_probability num_sides upper k < p)%Q.
Proof.
  intros Hsides Hupper Hp.
  destruct (compute_dice_frame_spec num_sides upper p) as
    (plan & Hplan & Hone & _ & Hgood & Hbelow); [lia|lia|done|].
  exists plan. split; [done|]. split; [done|]. split; [|split].
  - by apply Qle_bool_iff.
  - apply meets_false_lt, Hbelow. lia.
  - intros k Hk. by apply meets_false_lt, Hbelow.
Qed.

Lemma compute_dice_frame_minimal_witness :
  (2 ≤ 6 ≤ 20) ∧ (2 ≤ 31 ≤ 10 ^ 6) ∧ (0 < 99 # 100 < 1)%Q
  ∧ ∃ plan, Dice.compute_dice_frame 6 31 (99 # 100) = Some plan
      ∧ 1 ≤ Dice.required_num_rolls plan
      ∧ (99 # 100 <= Dice.success_probability 6 31
                        (Dice.required_num_rolls plan))%Q
      ∧ (Dice.success_probability 6 31 (Dice.required_num_rolls plan - 1)
         < 99 # 100)%Q
      ∧ ∀ k, 0 ≤ k < Dice.required_num_rolls plan →
             (Dice.success_probability 6 31 k < 99 # 100)%Q.
Proof.
  assert (H1 : 2 ≤ 6 ≤ 20) by lia.
  assert (H2 : 2 ≤ 31 ≤ 10 ^ 6) by lia.
  assert (H3 : (0 < 99 # 100 < 1)%Q) by (split; reflexivity).
  exact (conj H1 (conj H2 (conj H3
           (compute_dice_frame_minimal 6 31 (99 # 100) H1 H2 H3)))).
Defined.

(** The frames of the cases that the tests of the dice run: 6 sides and the
    bounds 36 and 31 at a required probability of 0.99. *)
Example compute_dice_frame_tests :
  Dice.compute_dice_frame 6 36 (99 # 100) = Some (Dice.mkDiceFrame 2 36)
  ∧ Dice.compute_dice_frame 6 31 (99 # 100) = Some (Dice.mkDiceFrame 5 7750)
  ∧ (Dice.DiceRng_randbelow (Dice.mkDiceRng 6 (99 # 100)) 31
       [[6; 6; 6; 6; 6]; [2; 3; 2; 3; 1]]).1
    = Some (Dice.rolls_to_value 6 [2; 3; 2; 3; 1] `mod` 31).
Proof. repeat split; by vm_compute. Qed.

(** C2.  For every valid input the frame's [upper_multiple] is an exact
    multiple of [upper], is at most [num_sides ** required_num_rolls], is
    the largest such multiple, and equals
    [(num_sides ** required_num_rolls // upper) * upper]. *)
Theorem compute_dice_frame_upper_multiple (num_sides upper : Z) (p : Q) :
  2 ≤ num_sides → 2 ≤ upper → (0 < p < 1)%Q →
  ∃ plan, Dice.compute_dice_frame num_sides upper p = Some plan
    ∧ let domain := num_sides ^ Dice.required_num_rolls plan in
      (upper | Dice.upper_multiple plan)
      ∧ Dice.upper_multiple plan ≤ domain
      ∧ (∀ m, (upper | m) → m ≤ domain → m ≤ Dice.upper_multiple plan)
      ∧ Dice.upper_multiple plan = domain / upper * upper.
Proof.
  intros Hsides Hupper Hp.
  destruct (compute_dice_frame_spec num_sides upper p) as
    (plan & Hplan & Hone & Hmul & _); [done..|].
  exists plan. split; [done|]. intros domain.
  assert (Hum : Dice.upper_multiple plan = domain / upper * upper) by done.
  repeat split.
  - rewrite Hum. by apply Z.divide_factor_r.
  - rewrite Hum. rewrite Z.mul_comm. apply Z.mul_div_le. lia.
  - intros m [q ->] Hm. rewrite Hum.
    apply Z.mul_le_mono_nonneg_r; [lia|].
    apply Z.div_le_lower_bound; lia.
  - done.
Qed.

Lemma compute_dice_frame_upper_multiple_witness :
  2 ≤ 6 ∧ 2 ≤ 36 ∧ (0 < 999999 # 1000000 < 1)%Q
  ∧ ∃ plan, Dice.compute_dice_frame 6 36 (999999 # 1000000) = Some plan
      ∧ let domain := 6 ^ Dice.required_num_rolls plan in
        (36 | Dice.upper_multiple plan)
        ∧ Dice.upper_multiple plan ≤ domain
        ∧ (∀ m, (36 | m) → m ≤ domain → m ≤ Dice.upper_multiple plan)
        ∧ Dice.upper_multiple plan = domain / 36 * 36.
Proof.
  assert (H1 : 2 ≤ 6) by lia.
  assert (H2 : 2 ≤ 36) by lia.
  assert (H3 : (0 < 999999 # 1000000 < 1)%Q) by (split; reflexivity).
  exact (conj H1 (conj H2 (conj H3
           (compute_dice_frame_upper_multiple 6 36 (999999 # 1000000) H1 H2 H3)))).
Defined.

(** ** The reduction of a batch of rolls, for a dice of 6 sides and bound 31 *)

(** With two rolls of a dice of 6 sides the largest multiple of 31 is 31. *)
Lemma dice_6_31_two_rolls (p : Q) (plan : Dice.DiceFrame) :
  Dice.compute_dice_frame 6 31 p = Some plan →
  Dice.required_num_rolls plan = 2 →
  Dice.upper_multiple plan = 31.
Proof.
  intros Hplan Hrolls.
  destruct (loop_sound _ _ _ _ _ _ Hplan) as (_ & Hmul & _).
  rewrite Hmul, Hrolls. reflexivity.
Qed.

(** The frame for a dice of 6 sides and bound 31, whenever the required
    probability is at most 31/36. *)
Lemma dice_6_31_frame (p : Q) :
  (0 < p)%Q → (p <= 31 # 36)%Q →
  Dice.compute_dice_frame 6 31 p = Some (Dice.mkDiceFrame 2 31).
Proof.
  intros Hpos Hle.
  assert (Hp : (0 < p < 1)%Q).
  { split; [done|]. eapply Qle_lt_trans; [exact Hle|reflexivity]. }
  destruct (compute_dice_frame_spec 6 31 p) as
    (plan & Hplan & Hone & Hmul & Hgood & Hbelow); [lia|lia|done|].
  assert (H2 : meets 6 31 p 2 = true) by (by apply Qle_bool_iff).
  assert (H1 : meets 6 31 p 1 = false).
  { apply not_true_is_false. unfold meets. rewrite Qle_bool_iff.
    intros Hc. pose proof (Qlt_le_trans _ _ _ Hpos Hc) as Habs.
    vm_compute in Habs. discriminate. }
  assert (Hrolls : Dice.required_num_rolls plan = 2).
  { destruct (Z_lt_le_dec 2 (Dice.required_num_rolls plan)) as [Hgt|Hlt].
    - specialize (Hbelow 2 ltac:(lia)). congruence.
    - destruct (decide (Dice.required_num_rolls plan = 1)) as [E|]; [|lia].
      rewrite E in Hgood. congruence. }
  rewrite Hplan. f_equal. destruct plan as [rolls multiple]. simpl in *.
  subst rolls. rewrite Hmul. reflexivity.
Qed.

(** The values that the concrete case of the specification gives do not
    hold: no required probability gives two rolls with a usable range of
    30, the batch [2,3] does not reduce to 7, and the draw does not return
    7. *)
Lemma dice_6_31_claimed_values_fail :
  ¬ (∃ p plan, Dice.compute_dice_frame 6 31 p = Some plan
       ∧ Dice.required_num_rolls plan = 2 ∧ Dice.upper_multiple plan = 30)
  ∧ Dice.rolls_to_value 6 [2; 3] ≠ 7
  ∧ fst (Dice.DiceRng_randbelow (Dice.mkDiceRng 6 (1 # 2)) 31
           [[6; 6]; [2; 3]]) ≠ Some 7.
Proof.
  split; [|split].
  - intros (p & plan & Hplan & Hrolls & Hmul).
    rewrite (dice_6_31_two_rolls p plan Hplan Hrolls) in Hmul. discriminate.
  - vm_compute. discriminate.
  - vm_compute. discriminate.
Qed.

(** C3 (amended).  For a dice of 6 sides, bound 31 and a required
    probability of at most 31/36, the frame has two rolls and a usable range
    of 31; the batch [6,6] reduces to 35, which is rejected because it is
    not below 31; the batch [2,3] reduces to 8, which is accepted because
    it is below 31, and the draw returns 8 mod 31 = 8. *)
Theorem dice_6_31_reduction (p : Q) :
  (0 < p)%Q → (p <= 31 # 36)%Q →
  Dice.compute_dice_frame 6 31 p = Some (Dice.mkDiceFrame 2 31)
  ∧ Dice.rolls_to_value 6 [6; 6] = 35 ∧ (35 <? 31) = false
  ∧ Dice.rolls_to_value 6 [2; 3] = 8 ∧ (8 <? 31) = true
  ∧ Dice.DiceRng_randbelow (Dice.mkDiceRng 6 p) 31 [[6; 6]; [2; 3]]
    = (Some (8 mod 31), [])
  ∧ 8 mod 31 = 8.
Proof.
  intros Hpos Hle. pose proof (dice_6_31_frame p Hpos Hle) as Hframe.
  repeat split; [done|].
  unfold Dice.DiceRng_randbelow. simpl Dice._num_sides.
  simpl Dice._required_success_probability. rewrite Hframe. reflexivity.
Qed.

Lemma dice_6_31_reduction_witness :
  (0 < 1 # 2)%Q ∧ (1 # 2 <= 31 # 36)%Q
  ∧ Dice.compute_dice_frame 6 31 (1 # 2) = Some (Dice.mkDiceFrame 2 31)
  ∧ Dice.rolls_to_value 6 [6; 6] = 35 ∧ (35 <? 31) = false
  ∧ Dice.rolls_to_value 6 [2; 3] = 8 ∧ (8 <? 31) = true
  ∧ Dice.DiceRng_randbelow (Dice.mkDiceRng 6 (1 # 2)) 31 [[6; 6]; [2; 3]]
    = (Some (8 mod 31), [])
  ∧ 8 mod 31 = 8.
Proof.
  assert (H1 : (0 < 1 # 2)%Q) by reflexivity.
  assert (H2 : (1 # 2 <= 31 # 36)%Q) by (unfold Qle; simpl; lia).
  exact (conj H1 (conj H2 (dice_6_31_reduction (1 # 2) H1 H2))).
Defined.

(** ** The passphrase generator *)

Section PassPhraseFacts.
Import PassPhraseGenerator.
Context {Rng Src : Type} `{!RngBase Rng Src}.

Lemma elem_of_str_iter (c : Ascii.ascii) (word : string) :
  String c EmptyString ∈ str_iter word ↔ char_occurs c word = true.
Proof.
  induction word as [|c' word IH]; simpl.
  - split; [by intros ?%elem_of_nil|done].
  - rewrite elem_of_cons, orb_true_iff, bool_decide_eq_true, IH.
    split; (intros [?|?]; [left|by right]); congruence.
Qed.

Lemma elem_of_word_alphabet (self : t Rng) (c : Ascii.ascii) :
  String c EmptyString ∈ _word_alphabet self
  ↔ existsb (char_occurs c) (_wordlist self) = true.
Proof.
  unfold _word_alphabet. rewrite elem_of_union_list, existsb_exists. split.
  - intros (X & HX & Hc). apply list_elem_of_fmap in HX as (word & -> & Hword).
    exists word. split; [by apply list_elem_of_In|].
    apply elem_of_list_to_set in Hc. by apply elem_of_str_iter.
  - intros (word & Hword & Hc). exists (list_to_set (str_iter word)). split.
    + apply list_elem_of_fmap. exists word. split; [done|].
      by apply list_elem_of_In.
    + apply elem_of_list_to_set. by apply elem_of_str_iter.
Qed.

Lemma delimiter_cases (delimiter : string) :
  (String.length delimiter ≤ 1)%nat →
  delimiter = EmptyString ∨ ∃ c, delimiter = String c EmptyString.
Proof.
  destruct delimiter as [|c [|c' rest]]; simpl; intros Hlen;
    [by left|right; eauto|lia].
Qed.

(** The code's flag and the specification's flag agree. *)
Lemma entropy_is_guaranteed_eq
    (wordlist : list string) (rng : Rng) (delimiter : string) (count : Z) :
  (String.length delimiter ≤ 1)%nat →
  _entropy_is_guaranteed (mk wordlist rng delimiter) count
  = inr (entropyIsGuaranteed wordlist delimiter count).
Proof.
  intros Hlen. unfold _entropy_is_guaranteed, entropyIsGuaranteed. simpl.
  rewrite bool_decide_true by done. simpl.
  destruct (count <=? 1); [done|].
  destruct (delimiter_cases delimiter Hlen) as [->|[c ->]]; [done|].
  rewrite bool_decide_false by done.
  pose proof (elem_of_word_alphabet (mk wordlist rng (String c EmptyString)) c)
    as Hmem. simpl in Hmem.
  destruct (existsb (char_occurs c) wordlist).
  - rewrite bool_decide_true; [done|]. by apply Hmem.
  - rewrite bool_decide_false; [done|]. intros Hin. apply Hmem in Hin. done.
Qed.

(** C4.  For every wordlist, every delimiter of at most one character and
    every count from 0 on, [_entropy_is_guaranteed] returns the flag that
    the specification words: true for at most one word, else false for the
    empty delimiter, else false when the delimiter character occurs inside
    some word, else true. *)
Theorem entropy_is_guaranteed_as_specified
    (wordlist : list string) (rng : Rng) (delimiter : string) (count : Z) :
  (String.length delimiter ≤ 1)%nat → 0 ≤ count →
  _entropy_is_guaranteed (mk wordlist rng delimiter) count
  = inr (entropyIsGuaranteed wordlist delimiter count).
Proof. intros Hlen _. by apply entropy_is_guaranteed_eq. Qed.

End PassPhraseFacts.

Lemma entropy_is_guaranteed_as_specified_witness :
  (String.length "o" ≤ 1)%nat ∧ 0 ≤ 3
  ∧ PassPhraseGenerator._entropy_is_guaranteed
      (PassPhraseGenerator.mk ["cat"; "dog"] Scripted "o") 3
    = inr (entropyIsGuaranteed ["cat"; "dog"] "o" 3).
Proof.
  assert (H1 : (String.length "o" ≤ 1)%nat) by (simpl; lia).
  assert (H2 : 0 ≤ 3) by lia.
  exact (conj H1 (conj H2
    (entropy_is_guaranteed_as_specified ["cat"; "dog"] Scripted "o" 3 H1 H2))).
Defined.


Section PassPhraseRuns.
Import PassPhraseGenerator.
Context {Rng Src : Type} `{!RngBase Rng Src}.

(** A comprehension over [range(n)] whose body ignores the index makes [n]
    successive draws. *)
Lemma mapM_range_draws {A} (rng : Rng) (sequence : list A) (f : Z → M Src A)
    (n : nat) : ∀ (start : Z) (w : World Src),
  (∀ i, f i = choice rng sequence) →
  mapM f (seqZ start (Z.of_nat n)) w = draws rng sequence n w.
Proof.
  induction n as [|n IH]; intros start w Hf; [done|].
  rewrite seqZ_cons by lia. simpl mapM. simpl draws. unfold bind.
  rewrite Hf. destruct (choice rng sequence w) as [[e|x] w1]; [done|].
  replace (Z.pred (Z.of_nat (S n))) with (Z.of_nat n) by lia.
  by rewrite IH.
Qed.

Lemma init_inv (wordlist : list string) (rng : Rng) (delimiter : string)
    (self : t Rng) :
  __init__ wordlist rng delimiter = inr self →
  self = mk wordlist rng delimiter ∧ (String.length delimiter ≤ 1)%nat.
Proof.
  unfold __init__, py_assert. case_bool_decide; simpl; [|done].
  by intros [= <-].
Qed.

(** [get_phrase] in one equation: the draws, then the three fields. *)
Lemma get_phrase_eq (wordlist : list string) (rng : Rng) (delimiter : string)
    (count : Z) (w : World Src) :
  wordlist ≠ [] → (String.length delimiter ≤ 1)%nat → 0 ≤ count →
  get_phrase (mk wordlist rng delimiter) count w =
  match draws rng wordlist (Z.to_nat count) w with
  | (inr words, w') =>
      (inr (mkPassPhraseResult (str_join delimiter words)
              (IZR count * log2 (IZR (len wordlist)))%R
              (entropyIsGuaranteed wordlist delimiter count)), w')
  | (inl e, w') => (inl e, w')
  end.
Proof.
  intros Hne Hlen Hcount. unfold get_phrase, py_range.
  unfold bind at 1.
  rewrite <- (Z2Nat.id count) at 1 by done.
  rewrite (mapM_range_draws rng wordlist) by done.
  destruct (draws rng wordlist (Z.to_nat count) w) as [[e|words] w']; [done|].
  unfold bind, lift, ret, _entropy_per_word, math_log2. simpl _wordlist.
  assert (Hpos : (len wordlist <=? 0) = false).
  { apply Z.leb_gt. unfold len. destruct wordlist; [done|]. simpl length. lia. }
  rewrite Hpos.
  by rewrite (entropy_is_guaranteed_eq wordlist rng delimiter count).
Qed.

End PassPhraseRuns.

(** C5.  For a non-empty wordlist and a count from 0 on, [get_phrase] makes
    [count] successive draws with [choice] from the wordlist; when they
    succeed, it returns a result whose phrase is the words drawn, in draw
    order, joined by the delimiter, and whose entropy is
    [count * log2(len(wordlist))]; when a draw raises, so does
    [get_phrase]. *)
Theorem get_phrase_joins_draws {Rng Src : Type} `{!RngBase Rng Src}
    (wordlist : list string) (rng : Rng) (delimiter : string)
    (self : PassPhraseGenerator.t Rng) (count : Z) (w : World Src) :
  wordlist ≠ [] → 0 ≤ count →
  PassPhraseGenerator.__init__ wordlist rng delimiter = inr self →
  match draws rng wordlist (Z.to_nat count) w with
  | (inr words, w') =>
      ∃ result, PassPhraseGenerator.get_phrase self count w = (inr result, w')
        ∧ PassPhraseGenerator.phrase result = str_join delimiter words
        ∧ PassPhraseGenerator.entropy result
          = (IZR count * log2 (IZR (len wordlist)))%R
  | (inl e, w') => PassPhraseGenerator.get_phrase self count w = (inl e, w')
  end.
Proof.
  intros Hne Hcount [-> Hlen]%init_inv.
  rewrite get_phrase_eq by done.
  destruct (draws rng wordlist (Z.to_nat count) w) as [[e|words] w']; [done|].
  eexists. split; [done|]. by split.
Qed.

Lemma get_phrase_joins_draws_witness :
  ["cat"; "dog"] ≠ [] ∧ 0 ≤ 3
  ∧ PassPhraseGenerator.__init__ ["cat"; "dog"] Scripted " "
    = inr (PassPhraseGenerator.mk ["cat"; "dog"] Scripted " ")
  ∧ ∃ result,
      PassPhraseGenerator.get_phrase
        (PassPhraseGenerator.mk ["cat"; "dog"] Scripted " ") 3
        (mkWorld [1; 0; 1] [])
      = (inr result,
         mkWorld []
           [CallChoice 2; CallRandbelow 2; CallChoice 2; CallRandbelow 2;
            CallChoice 2; CallRandbelow 2])
      ∧ PassPhraseGenerator.phrase result = "dog cat dog"
      ∧ PassPhraseGenerator.entropy result
        = (IZR 3 * log2 (IZR (len ["cat"; "dog"])))%R.
Proof.
  assert (H1 : ["cat"; "dog"] ≠ ([] : list string)) by discriminate.
  assert (H2 : 0 ≤ 3) by lia.
  assert (H3 : PassPhraseGenerator.__init__ ["cat"; "dog"] Scripted " "
               = inr (PassPhraseGenerator.mk ["cat"; "dog"] Scripted " "))
    by reflexivity.
  exact (conj H1 (conj H2 (conj H3
    (get_phrase_joins_draws ["cat"; "dog"] Scripted " " _ 3
       (mkWorld [1; 0; 1] []) H1 H2 H3)))).
Defined.

(** C9.  For a non-empty wordlist, a delimiter of at most one character and
    a count of 0, [get_phrase] returns the empty phrase with entropy 0 and
    the guarantee flag set, and the world is as before: no call was made
    to the random source. *)
Theorem get_phrase_zero {Rng Src : Type} `{!RngBase Rng Src}
    (wordlist : list string) (rng : Rng) (delimiter : string)
    (self : PassPhraseGenerator.t Rng) (w : World Src) :
  wordlist ≠ [] → (String.length delimiter ≤ 1)%nat →
  PassPhraseGenerator.__init__ wordlist rng delimiter = inr self →
  PassPhraseGenerator.get_phrase self 0 w
  = (inr (PassPhraseGenerator.mkPassPhraseResult "" 0%R true), w).
Proof.
  intros Hne Hlen [-> _]%init_inv.
  rewrite get_phrase_eq by done. simpl.
  by rewrite Rmult_0_l.
Qed.

Lemma get_phrase_zero_witness :
  ["cat"; "dog"] ≠ [] ∧ (String.length "" ≤ 1)%nat
  ∧ PassPhraseGenerator.__init__ ["cat"; "dog"] Scripted ""
    = inr (PassPhraseGenerator.mk ["cat"; "dog"] Scripted "")
  ∧ PassPhraseGenerator.get_phrase
      (PassPhraseGenerator.mk ["cat"; "dog"] Scripted "") 0
      (mkWorld [1; 0] [])
    = (inr (PassPhraseGenerator.mkPassPhraseResult "" 0%R true),
       mkWorld [1; 0] []).
Proof.
  assert (H1 : ["cat"; "dog"] ≠ ([] : list string)) by discriminate.
  assert (H2 : (String.length "" ≤ 1)%nat) by (simpl; lia).
  assert (H3 : PassPhraseGenerator.__init__ ["cat"; "dog"] Scripted ""
               = inr (PassPhraseGenerator.mk ["cat"; "dog"] Scripted ""))
    by reflexivity.
  exact (conj H1 (conj H2 (conj H3
    (get_phrase_zero ["cat"; "dog"] Scripted "" _ (mkWorld [1; 0] []) H1 H2 H3)))).
Defined.

(** ** The password generator *)

Section AlphabetFacts.
Import PasswordGenerator.

Lemma sorted_set_Sorted (alphabet : list string) :
  Sorted String.le (sorted_set alphabet).
Proof. unfold sorted_set. apply Sorted_merge_sort, _. Qed.

Lemma sorted_set_Permutation (alphabet : list string) :
  sorted_set alphabet ≡ₚ elements (list_to_set alphabet : gset string).
Proof. unfold sorted_set. apply merge_sort_Permutation. Qed.

Lemma sorted_set_NoDup (alphabet : list string) : NoDup (sorted_set alphabet).
Proof. rewrite sorted_set_Permutation. apply NoDup_elements. Qed.

Lemma elem_of_sorted_set (alphabet : list string) (c : string) :
  c ∈ sorted_set alphabet ↔ c ∈ alphabet.
Proof.
  rewrite sorted_set_Permutation, elem_of_elements. apply elem_of_list_to_set.
Qed.

Lemma sorted_set_length (alphabet : list string) :
  length (sorted_set alphabet) = size (list_to_set alphabet : gset string).
Proof. by rewrite sorted_set_Permutation. Qed.

Lemma sorted_set_nonempty (alphabet : list string) :
  alphabet ≠ [] → sorted_set alphabet ≠ [].
Proof.
  destruct alphabet as [|c rest]; [done|]. intros _ Hnil.
  assert (Hc : c ∈ sorted_set (c :: rest)) by (apply elem_of_sorted_set; left).
  rewrite Hnil in Hc. by apply elem_of_nil in Hc.
Qed.

(** Alphabets with the same characters are stored as the same list. *)
Lemma sorted_set_ext (alphabet1 alphabet2 : list string) :
  (∀ c, c ∈ alphabet1 ↔ c ∈ alphabet2) →
  sorted_set alphabet1 = sorted_set alphabet2.
Proof.
  intros Hsame. apply (Sorted_unique String.le); try apply sorted_set_Sorted.
  apply NoDup_Permutation; try apply sorted_set_NoDup.
  intros c. by rewrite !elem_of_sorted_set.
Qed.

Lemma log2_4 : log2 (IZR 4) = 2%R.
Proof.
  unfold log2. replace (IZR 4) with (2 * 2)%R by lra.
  rewrite ln_mult by lra. pose proof ln_lt_2. field. lra.
Qed.

End AlphabetFacts.

Section PasswordRuns.
Import PasswordGenerator.
Context {Rng Src : Type} `{!RngBase Rng Src}.

Lemma password_init_inv (alphabet : list string) (rng : Rng) (self : t Rng) :
  __init__ alphabet rng = inr self →
  self = mk (sorted_set alphabet) rng ∧ alphabet ≠ []
  ∧ Forall (λ c, String.length c = 1%nat) alphabet.
Proof.
  unfold __init__, py_assert.
  destruct (0 <? len alphabet) eqn:Hlen; simpl; [|done].
  destruct (forallb _ alphabet) eqn:Hall; simpl; [|done].
  intros [= <-]. split; [done|]. split.
  - intros ->. done.
  - apply Forall_forall. intros c Hc. rewrite forallb_forall in Hall.
    apply Nat.eqb_eq, Hall. by apply list_elem_of_In.
Qed.

Lemma password_init_ok (alphabet : list string) (rng : Rng) :
  alphabet ≠ [] → Forall (λ c, String.length c = 1%nat) alphabet →
  __init__ alphabet rng = inr (mk (sorted_set alphabet) rng).
Proof.
  intros Hne Hall. unfold __init__, py_assert.
  assert (Hlen : (0 <? len alphabet) = true).
  { apply Z.ltb_lt. unfold len. destruct alphabet; [done|]. simpl. lia. }
  rewrite Hlen. simpl.
  assert (Hall' : forallb (λ c, (String.length c =? 1)%nat) alphabet = true).
  { apply forallb_forall. intros c Hc. apply Nat.eqb_eq.
    rewrite Forall_forall in Hall. by apply Hall, list_elem_of_In. }
  by rewrite Hall'.
Qed.

(** [generate] in one equation: the draws, then the two fields. *)
Lemma generate_eq (alphabet : list string) (rng : Rng) (length : Z)
    (w : World Src) :
  alphabet ≠ [] → 0 ≤ length →
  generate (mk alphabet rng) length w =
  match draws rng alphabet (Z.to_nat length) w with
  | (inr chars, w') =>
      (inr (mkPasswordResult (str_join "" chars)
              (IZR length * log2 (IZR (len alphabet)))%R), w')
  | (inl e, w') => (inl e, w')
  end.
Proof.
  intros Hne Hlength. unfold generate, py_range.
  unfold bind at 1.
  rewrite <- (Z2Nat.id length) at 1 by done.
  rewrite (mapM_range_draws rng alphabet) by done.
  destruct (draws rng alphabet (Z.to_nat length) w) as [[e|chars] w']; [done|].
  unfold bind, lift, ret, _entropy_per_char, math_log2. simpl _alphabet.
  assert (Hpos : (len alphabet <=? 0) = false).
  { apply Z.leb_gt. unfold len. destruct alphabet; [done|]. simpl. lia. }
  by rewrite Hpos.
Qed.

(** One draw, spelled out: the two calls are recorded, then the element at
    the value of [randbelow] is returned. *)
Lemma choice_eq {A} (rng : Rng) (sequence : list A) (w : World Src) :
  choice rng sequence w =
  let '(r, s') := randbelow_impl rng (len sequence) (source w) in
  let w' := mkWorld s' ((calls w ++ [CallChoice (len sequence)])
                        ++ [CallRandbelow (len sequence)]) in
  match r with
  | inl e => (inl e, w')
  | inr i => (py_index sequence i, w')
  end.
Proof.
  unfold choice, bind, log_call, randbelow, lift. simpl.
  by destruct (randbelow_impl rng (len sequence) (source w)) as [[e|i] s'].
Qed.

(** The elements drawn are those at the values that the source gives. *)
Lemma draws_outputs {A} (rng : Rng) (sequence : list A) (n : nat) :
  ∀ (w : World Src) (vs : list Z),
  rng_outputs rng (len sequence) n (source w) = Some vs →
  fst (draws rng sequence n w) = picks sequence vs.
Proof.
  induction n as [|n IH]; intros w vs Hout; simpl in Hout.
  - by injection Hout as <-.
  - simpl draws. unfold bind at 1. rewrite choice_eq.
    destruct (randbelow_impl rng (len sequence) (source w)) as [[e|v] s'];
      [done|].
    destruct (rng_outputs rng (len sequence) n s') as [vs'|] eqn:Hrest; [|done].
    injection Hout as <-. unfold picks. simpl emapM. unfold ebind at 1.
    cbv zeta. destruct (py_index sequence v) as [e|x]; [done|].
    unfold bind at 1.
    specialize (IH (mkWorld s' ((calls w ++ [CallChoice (len sequence)])
                                 ++ [CallRandbelow (len sequence)])) vs' Hrest).
    destruct (draws rng sequence n _) as [[e|xs] w2]; simpl in IH;
      unfold picks in IH; rewrite <- IH; done.
Qed.

(** What [generate] returns is a function of the values that the source
    gives. *)
Lemma generate_outputs (alphabet : list string) (rng : Rng) (length : Z)
    (w : World Src) (vs : list Z) :
  alphabet ≠ [] → 0 ≤ length →
  rng_outputs rng (len alphabet) (Z.to_nat length) (source w) = Some vs →
  fst (generate (mk alphabet rng) length w) =
  match picks alphabet vs with
  | inr chars => inr (mkPasswordResult (str_join "" chars)
                        (IZR length * log2 (IZR (len alphabet)))%R)
  | inl e => inl e
  end.
Proof.
  intros Hne Hlength Hout. rewrite generate_eq by done.
  rewrite <- (draws_outputs rng alphabet _ w vs Hout).
  by destruct (draws rng alphabet (Z.to_nat length) w) as [[e|chars] w'].
Qed.

End PasswordRuns.

(** C6.  For a non-empty alphabet of single characters (duplicates and any
    order allowed) and a length from 0 on: the generator is built, and its
    alphabet is sorted, free of duplicates and has the characters of the
    given one; [generate] makes [length] successive draws with [choice]
    from that alphabet and returns their concatenation with the entropy
    [length * log2(number of distinct characters)]; for the alphabet
    "aabbcd" and length 5 the entropy is exactly 10. *)
Theorem password_generator_dedups_and_draws {Rng Src : Type} `{!RngBase Rng Src}
    (alphabet : list string) (rng : Rng) (length : Z) (w : World Src) :
  alphabet ≠ [] → Forall (λ c, String.length c = 1%nat) alphabet → 0 ≤ length →
  ∃ self distinct,
    PasswordGenerator.__init__ alphabet rng = inr self
    ∧ distinct = PasswordGenerator._alphabet self
    ∧ Sorted String.le distinct ∧ NoDup distinct
    ∧ (∀ c, c ∈ distinct ↔ c ∈ alphabet)
    ∧ len distinct = Z.of_nat (size (list_to_set alphabet : gset string))
    ∧ match draws rng distinct (Z.to_nat length) w with
      | (inr chars, w') =>
          PasswordGenerator.generate self length w
          = (inr (PasswordGenerator.mkPasswordResult (str_join "" chars)
                    (IZR length * log2 (IZR (len distinct)))%R), w')
      | (inl e, w') => PasswordGenerator.generate self length w = (inl e, w')
      end
    ∧ (alphabet = str_iter "aabbcd" → length = 5 →
       len distinct = 4
       ∧ ∀ result w',
           PasswordGenerator.generate self length w = (inr result, w') →
           PasswordGenerator.entropy result = 10%R).
Proof.
  intros Hne Hall Hlength.
  exists (PasswordGenerator.mk (PasswordGenerator.sorted_set alphabet) rng).
  exists (PasswordGenerator.sorted_set alphabet).
  pose proof (sorted_set_nonempty alphabet Hne) as Hne'.
  split; [by apply password_init_ok|]. split; [done|].
  split; [apply sorted_set_Sorted|]. split; [apply sorted_set_NoDup|].
  split; [apply elem_of_sorted_set|].
  split; [unfold len; by rewrite sorted_set_length|].
  split.
  - rewrite generate_eq by done.
    by destruct (draws rng _ (Z.to_nat length) w) as [[e|chars] w'].
  - intros Halphabet ->.
    assert (Hfour : len (PasswordGenerator.sorted_set alphabet) = 4)
      by (rewrite Halphabet; vm_compute; reflexivity).
    split; [done|]. intros result w'. rewrite generate_eq by done.
    destruct (draws rng _ (Z.to_nat 5) w) as [[e|chars] w1]; [done|].
    intros [= <- _]. cbn [PasswordGenerator.entropy].
    rewrite Hfour, log2_4. lra.
Qed.

Lemma password_generator_dedups_and_draws_witness :
  str_iter "aabbcd" ≠ []
  ∧ Forall (λ c, String.length c = 1%nat) (str_iter "aabbcd") ∧ 0 ≤ 5
  ∧ ∃ self distinct,
      PasswordGenerator.__init__ (str_iter "aabbcd") Scripted = inr self
      ∧ distinct = PasswordGenerator._alphabet self
      ∧ Sorted String.le distinct ∧ NoDup distinct
      ∧ (∀ c, c ∈ distinct ↔ c ∈ str_iter "aabbcd")
      ∧ len distinct
        = Z.of_nat (size (list_to_set (str_iter "aabbcd") : gset string))
      ∧ match draws Scripted distinct (Z.to_nat 5)
                (mkWorld [3; 0; 2; 2; 1] []) with
        | (inr chars, w') =>
            PasswordGenerator.generate self 5 (mkWorld [3; 0; 2; 2; 1] [])
            = (inr (PasswordGenerator.mkPasswordResult (str_join "" chars)
                      (IZR 5 * log2 (IZR (len distinct)))%R), w')
        | (inl e, w') =>
            PasswordGenerator.generate self 5 (mkWorld [3; 0; 2; 2; 1] [])
            = (inl e, w')
        end
      ∧ (str_iter "aabbcd" = str_iter "aabbcd" → 5 = 5 →
         len distinct = 4
         ∧ ∀ result w',
             PasswordGenerator.generate self 5 (mkWorld [3; 0; 2; 2; 1] [])
             = (inr result, w') →
             PasswordGenerator.entropy result = 10%R).
Proof.
  assert (H1 : str_iter "aabbcd" ≠ []) by discriminate.
  assert (H2 : Forall (λ c, String.length c = 1%nat) (str_iter "aabbcd"))
    by (repeat constructor).
  assert (H3 : 0 ≤ 5) by lia.
  exact (conj H1 (conj H2 (conj H3
    (password_generator_dedups_and_draws (str_iter "aabbcd") Scripted 5
       (mkWorld [3; 0; 2; 2; 1] []) H1 H2 H3)))).
Defined.

(** The password that the scripted draws 3, 0, 2, 2, 1 give over "aabbcd". *)
Example generate_aabbcd :
  (PasswordGenerator.generate
     (PasswordGenerator.mk (PasswordGenerator.sorted_set (str_iter "aabbcd"))
        Scripted) 5 (mkWorld [3; 0; 2; 2; 1] [])).1
  = inr (PasswordGenerator.mkPasswordResult "daccb"
           (IZR 5 * log2 (IZR 4))%R).
Proof.
  rewrite (generate_outputs _ _ _ _ [3; 0; 2; 2; 1]);
    [reflexivity|by vm_compute|lia|reflexivity].
Qed.

(** Not every password result carries a guarantee flag set to true: the
    result for the alphabet "ab", length 1 and the draw 0 has no attribute
    of that name. *)
Lemma password_result_guarantee_flag_fails :
  ∃ (alphabet : list string) (length : Z) (w w' : World (list Z))
    (self : PasswordGenerator.t ScriptedRng)
    (result : PasswordGenerator.PasswordResult),
    PasswordGenerator.__init__ alphabet Scripted = inr self
    ∧ PasswordGenerator.generate self length w = (inr result, w')
    ∧ PasswordGenerator.PasswordResult_getattr result "entropy_is_guaranteed"
      = None
    ∧ PasswordGenerator.PasswordResult_getattr result "entropy_is_guaranteed"
      ≠ Some (PyBool true).
Proof.
  exists ["a"; "b"], 1, (mkWorld [0] []). do 3 eexists.
  split; [reflexivity|]. split; [reflexivity|]. split; [reflexivity|].
  discriminate.
Qed.

(** The passphrase result, by contrast, declares the flag. *)
Lemma passphrase_result_carries_flag (result : PassPhraseGenerator.PassPhraseResult) :
  PassPhraseGenerator.PassPhraseResult_getattr result "entropy_is_guaranteed"
  = Some (PyBool (PassPhraseGenerator.entropy_is_guaranteed result)).
Proof. reflexivity. Qed.

(** C7 (amended).  For every alphabet and every length, the result that
    [generate] returns is a [PasswordResult]: it carries the password and
    the entropy, and no guarantee flag. *)
Theorem password_result_fields {Rng Src : Type} `{!RngBase Rng Src}
    (alphabet : list string) (rng : Rng) (length : Z)
    (self : PasswordGenerator.t Rng) (w w' : World Src)
    (result : PasswordGenerator.PasswordResult) :
  PasswordGenerator.__init__ alphabet rng = inr self →
  PasswordGenerator.generate self length w = (inr result, w') →
  PasswordGenerator.PasswordResult_getattr result "password"
  = Some (PyStr (PasswordGenerator.password result))
  ∧ PasswordGenerator.PasswordResult_getattr result "entropy"
    = Some (PyFloat (PasswordGenerator.entropy result))
  ∧ PasswordGenerator.PasswordResult_getattr result "entropy_is_guaranteed"
    = None.
Proof. intros _ _. by repeat split. Qed.

Lemma password_result_fields_witness :
  PasswordGenerator.__init__ ["a"; "b"] Scripted
  = inr (PasswordGenerator.mk ["a"; "b"] Scripted)
  ∧ PasswordGenerator.generate (PasswordGenerator.mk ["a"; "b"] Scripted) 1
      (mkWorld [0] [])
    = (inr (PasswordGenerator.mkPasswordResult "a" (IZR 1 * log2 (IZR 2))%R),
       mkWorld [] [CallChoice 2; CallRandbelow 2])
  ∧ PasswordGenerator.PasswordResult_getattr
      (PasswordGenerator.mkPasswordResult "a" (IZR 1 * log2 (IZR 2))%R)
      "password" = Some (PyStr "a")
  ∧ PasswordGenerator.PasswordResult_getattr
      (PasswordGenerator.mkPasswordResult "a" (IZR 1 * log2 (IZR 2))%R)
      "entropy" = Some (PyFloat (IZR 1 * log2 (IZR 2))%R)
  ∧ PasswordGenerator.PasswordResult_getattr
      (PasswordGenerator.mkPasswordResult "a" (IZR 1 * log2 (IZR 2))%R)
      "entropy_is_guaranteed" = None.
Proof.
  assert (H1 : PasswordGenerator.__init__ ["a"; "b"] Scripted
               = inr (PasswordGenerator.mk ["a"; "b"] Scripted))
    by reflexivity.
  assert (H2 : PasswordGenerator.generate
                 (PasswordGenerator.mk ["a"; "b"] Scripted) 1 (mkWorld [0] [])
               = (inr (PasswordGenerator.mkPasswordResult "a"
                         (IZR 1 * log2 (IZR 2))%R),
                  mkWorld [] [CallChoice 2; CallRandbelow 2]))
    by reflexivity.
  exact (conj H1 (conj H2
    (password_result_fields ["a"; "b"] Scripted 1 _ _ _ _ H1 H2))).
Defined.

(** C10.  Two valid alphabets with the same characters give generators that
    hold the same alphabet; run on sources that give the same values, the
    two generators return the same result (the same password and entropy,
    or the same error). *)
Theorem same_characters_same_passwords
    {Rng1 Src1 Rng2 Src2 : Type} `{!RngBase Rng1 Src1} `{!RngBase Rng2 Src2}
    (alphabet1 alphabet2 : list string) (rng1 : Rng1) (rng2 : Rng2)
    (self1 : PasswordGenerator.t Rng1) (self2 : PasswordGenerator.t Rng2) :
  (∀ c, c ∈ alphabet1 ↔ c ∈ alphabet2) →
  PasswordGenerator.__init__ alphabet1 rng1 = inr self1 →
  PasswordGenerator.__init__ alphabet2 rng2 = inr self2 →
  PasswordGenerator._alphabet self1 = PasswordGenerator._alphabet self2
  ∧ ∀ (length : Z) (w1 : World Src1) (w2 : World Src2) (vs : list Z),
      0 ≤ length →
      rng_outputs rng1 (len (PasswordGenerator._alphabet self1))
        (Z.to_nat length) (source w1) = Some vs →
      rng_outputs rng2 (len (PasswordGenerator._alphabet self2))
        (Z.to_nat length) (source w2) = Some vs →
      (PasswordGenerator.generate self1 length w1).1
      = (PasswordGenerator.generate self2 length w2).1.
Proof.
  intros Hsame (-> & Hne1 & _)%password_init_inv (-> & Hne2 & _)%password_init_inv.
  pose proof (sorted_set_ext _ _ Hsame) as Heq. simpl. split; [done|].
  intros length w1 w2 vs Hlength Hout1 Hout2.
  rewrite (generate_outputs _ _ _ _ vs) by (done || by apply sorted_set_nonempty).
  rewrite (generate_outputs _ _ _ _ vs) by (done || by apply sorted_set_nonempty).
  by rewrite Heq.
Qed.

Lemma same_characters_same_passwords_witness :
  (∀ c, c ∈ str_iter "aabbcd" ↔ c ∈ str_iter "dcba")
  ∧ PasswordGenerator.__init__ (str_iter "aabbcd") Scripted
    = inr (PasswordGenerator.mk (PasswordGenerator.sorted_set (str_iter "aabbcd"))
             Scripted)
  ∧ PasswordGenerator.__init__ (str_iter "dcba") (Dice.mkDiceRng 6 (1 # 2))
    = inr (PasswordGenerator.mk (PasswordGenerator.sorted_set (str_iter "dcba"))
             (Dice.mkDiceRng 6 (1 # 2)))
  ∧ PasswordGenerator.sorted_set (str_iter "aabbcd")
    = PasswordGenerator.sorted_set (str_iter "dcba")
  ∧ ∀ (length : Z) (w1 : World (list Z)) (w2 : World (list (list Z)))
      (vs : list Z),
      0 ≤ length →
      rng_outputs Scripted (len (PasswordGenerator.sorted_set (str_iter "aabbcd")))
        (Z.to_nat length) (source w1) = Some vs →
      rng_outputs (Dice.mkDiceRng 6 (1 # 2))
        (len (PasswordGenerator.sorted_set (str_iter "dcba")))
        (Z.to_nat length) (source w2) = Some vs →
      (PasswordGenerator.generate
         (PasswordGenerator.mk (PasswordGenerator.sorted_set (str_iter "aabbcd"))
            Scripted) length w1).1
      = (PasswordGenerator.generate
           (PasswordGenerator.mk (PasswordGenerator.sorted_set (str_iter "dcba"))
              (Dice.mkDiceRng 6 (1 # 2))) length w2).1.
Proof.
  assert (H1 : ∀ c, c ∈ str_iter "aabbcd" ↔ c ∈ str_iter "dcba").
  { intros c. simpl. rewrite !elem_of_cons, !elem_of_nil. tauto. }
  assert (H2 : PasswordGenerator.__init__ (str_iter "aabbcd") Scripted
               = inr (PasswordGenerator.mk
                        (PasswordGenerator.sorted_set (str_iter "aabbcd"))
                        Scripted)) by reflexivity.
  assert (H3 : PasswordGenerator.__init__ (str_iter "dcba")
                 (Dice.mkDiceRng 6 (1 # 2))
               = inr (PasswordGenerator.mk
                        (PasswordGenerator.sorted_set (str_iter "dcba"))
                        (Dice.mkDiceRng 6 (1 # 2)))) by reflexivity.
  exact (conj H1 (conj H2 (conj H3
    (same_characters_same_passwords (str_iter "aabbcd") (str_iter "dcba")
       Scripted (Dice.mkDiceRng 6 (1 # 2)) _ _ H1 H2 H3)))).
Defined.

(** ** Configuration errors *)

Section ConfigurationErrors.
Context {Rng Src : Type} `{!RngBase Rng Src}.
Variable rng_new : Registry.RngCls → list (string * Z) → PyError + Rng.

Lemma get_rng_unknown (random_source : string) (possible_options : gmap string Z) :
  random_source ∉ Registry.available_random_sources →
  Registry.get_rng rng_new random_source possible_options
  = inl (AssertionError
           ("Unknown random source `" +:+ random_source +:+ "`. Use one of "
            +:+ Registry.available_randomness_sources_str +:+ ".")).
Proof.
  intros Hunknown. unfold Registry.get_rng, Registry.dict_mem, py_assert.
  by rewrite bool_decide_false.
Qed.

Lemma passphrase_init_long_delimiter (wordlist : list string) (rng : Rng)
    (delimiter : string) :
  (1 < String.length delimiter)%nat →
  PassPhraseGenerator.__init__ wordlist rng delimiter
  = inl (AssertionError "--delimiter must be single character or empty.").
Proof.
  intros Hlong. unfold PassPhraseGenerator.__init__, py_assert.
  rewrite bool_decide_false by lia. done.
Qed.

Lemma password_init_empty (rng : Rng) :
  PasswordGenerator.__init__ [] rng
  = inl (AssertionError "Alphabet must not be empty.").
Proof. reflexivity. Qed.

Lemma password_init_token (alphabet : list string) (rng : Rng) (token : string) :
  token ∈ alphabet → String.length token ≠ 1%nat →
  PasswordGenerator.__init__ alphabet rng
  = inl (AssertionError "Alphabet must be a list of characters (length 1).").
Proof.
  intros Hin Htoken. unfold PasswordGenerator.__init__, py_assert.
  assert (Hlen : (0 <? len alphabet) = true).
  { apply Z.ltb_lt. unfold len. destruct alphabet; [by apply elem_of_nil in Hin|].
    simpl. lia. }
  rewrite Hlen. simpl.
  assert (Hall : forallb (λ c, (String.length c =? 1)%nat) alphabet = false).
  { apply not_true_is_false. intros Hall. rewrite forallb_forall in Hall.
    apply Htoken, Nat.eqb_eq, Hall. by apply list_elem_of_In. }
  by rewrite Hall.
Qed.

(** Whatever is run after a step that raised is not run. *)
Lemma raised_before {A B} (c : PyError + A) (k : A → M Src B) (e : PyError)
    (w : World Src) :
  c = inl e → (do! x := lift c in k x) w = (inl e, w).
Proof. by intros ->. Qed.

(** A step that does not touch the source leaves the world as it is. *)
Lemma lift_fail_or_continue {A B} (c : PyError + A) (k : A → M Src B)
    (w : World Src) :
  (∀ a, c = inr a → ∃ e, k a w = (inl e, w)) →
  ∃ e, (do! x := lift c in k x) w = (inl e, w).
Proof.
  intros Hk. unfold bind, lift. destruct c as [e|a]; [by exists e|].
  by apply Hk.
Qed.

(** C8.  Each configuration error raises an [AssertionError] before any
    draw: an unknown source name in [get_rng], a delimiter of more than one
    character in the passphrase generator, an empty alphabet or an alphabet
    with a token that is not one character in the password generator.
    Whatever generation would follow is not run; the two generation calls
    fail and leave the world, hence the calls made to the random source, as
    they were. *)
Theorem configuration_errors_before_any_draw :
  (∀ random_source possible_options,
     random_source ∉ Registry.available_random_sources →
     ∃ msg,
       Registry.get_rng rng_new random_source possible_options
       = inl (AssertionError msg)
       ∧ ∀ B (k : Rng → M Src B) w,
           (do! rng := lift (Registry.get_rng rng_new random_source
                               possible_options) in k rng) w
           = (inl (AssertionError msg), w))
  ∧ (∀ wordlist rng delimiter,
       (1 < String.length delimiter)%nat →
       ∃ msg,
         PassPhraseGenerator.__init__ wordlist rng delimiter
         = inl (AssertionError msg)
         ∧ ∀ B (k : PassPhraseGenerator.t Rng → M Src B) w,
             (do! self := lift (PassPhraseGenerator.__init__ wordlist rng
                                  delimiter) in k self) w
             = (inl (AssertionError msg), w))
  ∧ (∀ alphabet rng,
       alphabet = [] ∨ (∃ token, token ∈ alphabet ∧ String.length token ≠ 1%nat) →
       ∃ msg,
         PasswordGenerator.__init__ alphabet rng = inl (AssertionError msg)
         ∧ ∀ B (k : PasswordGenerator.t Rng → M Src B) w,
             (do! self := lift (PasswordGenerator.__init__ alphabet rng) in
              k self) w
             = (inl (AssertionError msg), w))
  ∧ (∀ length randomness_source wordlist delimiter dice_sides w,
       randomness_source ∉ Registry.available_random_sources
       ∨ (1 < String.length delimiter)%nat →
       ∃ e, Commands.pp_generate rng_new length randomness_source wordlist
              delimiter dice_sides w = (inl e, w))
  ∧ (∀ length randomness_source dice_sides alpha w,
       randomness_source ∉ Registry.available_random_sources ∨ alpha = "" →
       ∃ e, Commands.pw_generate rng_new length randomness_source dice_sides
              alpha w = (inl e, w)).
Proof.
  split; [|split; [|split; [|split]]].
  - intros random_source possible_options Hunknown. eexists.
    split; [by apply get_rng_unknown|].
    intros B k w. by apply raised_before, get_rng_unknown.
  - intros wordlist rng delimiter Hlong. eexists.
    split; [by apply passphrase_init_long_delimiter|].
    intros B k w. by apply raised_before, passphrase_init_long_delimiter.
  - intros alphabet rng [ -> | (token & Hin & Htoken) ]; eexists.
    + split; [apply password_init_empty|].
      intros B k w. apply raised_before, password_init_empty.
    + split; [by apply (password_init_token _ _ token)|].
      intros B k w. by apply raised_before, (password_init_token _ _ token).
  - intros length randomness_source wordlist delimiter dice_sides w Herr.
    unfold Commands.pp_generate. destruct Herr as [Hunknown|Hlong].
    + eexists. by apply raised_before, get_rng_unknown.
    + apply lift_fail_or_continue. intros rng _.
      eexists. by apply raised_before, passphrase_init_long_delimiter.
  - intros length randomness_source dice_sides alpha w Herr.
    unfold Commands.pw_generate.
    apply lift_fail_or_continue. intros _ _.
    destruct Herr as [ Hunknown | -> ].
    + apply lift_fail_or_continue. intros _ _.
      eexists. by apply raised_before, get_rng_unknown.
    + eexists. by apply raised_before.
Qed.

End ConfigurationErrors.

Lemma configuration_errors_before_any_draw_witness :
  ("dic" ∉ Registry.available_random_sources)
  ∧ (1 < String.length "--")%nat
  ∧ ("bc" ∈ ["a"; "bc"] ∧ String.length "bc" ≠ 1%nat)
  ∧ (∃ msg,
       Registry.get_rng scripted_new "dic" {[ "dice_sides" := 6 ]}
       = inl (AssertionError msg)
       ∧ ∀ B (k : ScriptedRng → M (list Z) B) w,
           (do! rng := lift (Registry.get_rng scripted_new "dic"
                               {[ "dice_sides" := 6 ]}) in k rng) w
           = (inl (AssertionError msg), w))
  ∧ (∃ msg,
       PassPhraseGenerator.__init__ ["cat"; "dog"] Scripted "--"
       = inl (AssertionError msg)
       ∧ ∀ B (k : PassPhraseGenerator.t ScriptedRng → M (list Z) B) w,
           (do! self := lift (PassPhraseGenerator.__init__ ["cat"; "dog"]
                                Scripted "--") in k self) w
           = (inl (AssertionError msg), w))
  ∧ (∃ msg,
       PasswordGenerator.__init__ ["a"; "bc"] Scripted
       = inl (AssertionError msg)
       ∧ ∀ B (k : PasswordGenerator.t ScriptedRng → M (list Z) B) w,
           (do! self := lift (PasswordGenerator.__init__ ["a"; "bc"] Scripted) in
            k self) w
           = (inl (AssertionError msg), w))
  ∧ (∃ e, Commands.pp_generate scripted_new 3 "system" ["cat"; "dog"] "--" 6
            (mkWorld [1; 0; 1] []) = (inl e, mkWorld [1; 0; 1] []))
  ∧ (∃ e, Commands.pw_generate scripted_new (Some 5) "dic" 6 "aabbcd"
            (mkWorld [3; 0; 2; 2; 1] []) = (inl e, mkWorld [3; 0; 2; 2; 1] [])).
Proof.
  assert (H1 : "dic" ∉ Registry.available_random_sources).
  { unfold Registry.available_random_sources. simpl.
    rewrite !not_elem_of_cons. repeat split; [done..|apply not_elem_of_nil]. }
  assert (H2 : (1 < String.length "--")%nat) by (simpl; lia).
  assert (H3 : "bc" ∈ ["a"; "bc"] ∧ String.length "bc" ≠ 1%nat).
  { split; [|discriminate]. rewrite !elem_of_cons. by right; left. }
  destruct (configuration_errors_before_any_draw (Src := list Z) scripted_new)
    as (Hrng & Hphrase & Hword & Hpp & Hpw).
  split; [exact H1|]. split; [exact H2|]. split; [exact H3|].
  split; [exact (Hrng "dic" _ H1)|].
  split; [exact (Hphrase ["cat"; "dog"] Scripted "--" H2)|].
  split; [exact (Hword ["a"; "bc"] Scripted (or_intror (ex_intro _ "bc" H3)))|].
  split; [exact (Hpp 3 "system" ["cat"; "dog"] "--" 6 _ (or_intror H2))|].
  exact (Hpw (Some 5) "dic" 6 "aabbcd" _ (or_introl H1)).
Defined.

(** The two generation calls on a scripted source: a phrase of three words
    and a password of five characters. *)
Example pp_generate_cat_dog :
  (Commands.pp_generate scripted_new 3 "system" ["cat"; "dog"] " " 6
     (mkWorld [1; 0; 1] [])).2
  = mkWorld []
      [CallChoice 2; CallRandbelow 2; CallChoice 2; CallRandbelow 2;
       CallChoice 2; CallRandbelow 2].
Proof. reflexivity. Qed.

(** The guarantee flag of the code on the three cases of the
    specification. *)
Example entropy_is_guaranteed_cat_dog :
  PassPhraseGenerator._entropy_is_guaranteed
    (PassPhraseGenerator.mk ["cat"; "dog"] Scripted " ") 3 = inr true
  ∧ PassPhraseGenerator._entropy_is_guaranteed
      (PassPhraseGenerator.mk ["cat"; "dog"] Scripted "") 3 = inr false
  ∧ PassPhraseGenerator._entropy_is_guaranteed
      (PassPhraseGenerator.mk ["cat"; "dog"] Scripted "o") 3 = inr false.
Proof. repeat split; by vm_compute. Qed.

(* ===================================================================== *)
(** * Further properties of the code *)
(* ===================================================================== *)

(** ** Strings: splitting and joining *)

Section StringFacts.
Variable sep : Ascii.ascii.

Lemma str_split_nonempty (s : string) : str_split sep s ≠ [].
Proof.
  induction s as [|c s IH]; simpl; [done|].
  case_bool_decide; [done|]. by destruct (str_split sep s).
Qed.

Lemma str_split_sep (s : string) :
  str_split sep (String sep s) = EmptyString :: str_split sep s.
Proof. simpl. by rewrite bool_decide_true. Qed.

Lemma str_app_nil (s : string) : EmptyString +:+ s = s.
Proof. reflexivity. Qed.

Lemma str_app_cons (c : Ascii.ascii) (word s : string) :
  String c word +:+ s = String c (word +:+ s).
Proof. reflexivity. Qed.

Lemma str_split_app (word s : string) :
  char_occurs sep word = false →
  str_split sep (word +:+ s) =
  match str_split sep s with
  | [] => [word]
  | first :: others => (word +:+ first) :: others
  end.
Proof.
  induction word as [|c word IH]; intros Hfree.
  - rewrite str_app_nil. pose proof (str_split_nonempty s).
    destruct (str_split sep s); [done|].
    by rewrite str_app_nil.
  - simpl in Hfree. apply orb_false_iff in Hfree as [Hc Hword].
    apply bool_decide_eq_false in Hc.
    rewrite str_app_cons. simpl. rewrite bool_decide_false by congruence.
    rewrite IH by done. pose proof (str_split_nonempty s).
    by destruct (str_split sep s).
Qed.

Lemma str_split_word (word : string) :
  char_occurs sep word = false → str_split sep word = [word].
Proof.
  induction word as [|c word IH]; simpl; intros Hfree; [done|].
  apply orb_false_iff in Hfree as [Hc Hword].
  apply bool_decide_eq_false in Hc.
  rewrite bool_decide_false by congruence. by rewrite IH.
Qed.

Lemma str_join_cons (delimiter word : string) (words : list string) :
  words ≠ [] →
  str_join delimiter (word :: words)
  = word +:+ delimiter +:+ str_join delimiter words.
Proof. by destruct words. Qed.

(** Splitting a phrase at a delimiter that occurs in none of its words gives
    the words back. *)
Lemma str_split_join (words : list string) :
  words ≠ [] → Forall (λ word, char_occurs sep word = false) words →
  str_split sep (str_join (String sep EmptyString) words) = words.
Proof.
  induction words as [|word words IH]; [done|]. intros _ Hfree.
  apply Forall_cons in Hfree as [Hword Hwords].
  destruct (decide (words = [])) as [->|Hne].
  - simpl. by apply str_split_word.
  - rewrite str_join_cons by done. rewrite str_split_app by done.
    rewrite str_app_cons, str_app_nil, str_split_sep, IH by done.
    f_equal. clear. induction word as [|c word IH]; [done|].
    by rewrite str_app_cons, IH.
Qed.

(** Joining the parts of a split gives the string back. *)
Lemma str_join_split (s : string) :
  str_join (String sep EmptyString) (str_split sep s) = s.
Proof.
  induction s as [|c s IH]; simpl; [done|].
  pose proof (str_split_nonempty s) as Hne. case_bool_decide as Hc.
  - subst c. rewrite str_join_cons by done. by rewrite IH.
  - destruct (str_split sep s) as [|first others]; [done|].
    destruct others as [|second others].
    + simpl in *. by rewrite IH.
    + rewrite str_join_cons in IH by done. rewrite str_join_cons by done.
      by rewrite str_app_cons, IH.
Qed.

End StringFacts.

(** ** Draws *)

Section DrawFacts.
Context {Rng Src : Type} `{!RngBase Rng Src}.

Lemma py_index_elem {A} (l : list A) (i : Z) (a : A) :
  py_index l i = inr a → a ∈ l.
Proof.
  unfold py_index. destruct (_ <? 0); [done|].
  destruct (l !! _) as [x|] eqn:Hx; [|done].
  intros [= <-]. by eapply list_elem_of_lookup_2.
Qed.

Lemma py_index_nil {A} (i : Z) : py_index (@nil A) i = inl IndexError.
Proof. unfold py_index. destruct (_ <? 0); [done|]. by rewrite lookup_nil. Qed.

Lemma draw_calls_S (size : Z) (k : nat) :
  draw_calls size (S k)
  = [CallChoice size; CallRandbelow size] ++ draw_calls size k.
Proof. reflexivity. Qed.

(** What [n] draws leave: on success [n] elements of the sequence and [n]
    recorded draws; on failure at most [n] recorded draws, the last one
    being the draw that raised. *)
Lemma draws_inv {A} (rng : Rng) (sequence : list A) (n : nat) :
  ∀ w : World Src,
  match draws rng sequence n w with
  | (inr xs, w') =>
      length xs = n ∧ Forall (λ x, x ∈ sequence) xs
      ∧ calls w' = calls w ++ draw_calls (len sequence) n
  | (inl e, w') =>
      ∃ k, (k < n)%nat ∧ calls w' = calls w ++ draw_calls (len sequence) (S k)
  end.
Proof.
  induction n as [|n IH]; intros w; simpl draws.
  - unfold ret. by rewrite app_nil_r.
  - unfold bind at 1. rewrite choice_eq.
    destruct (randbelow_impl rng (len sequence) (source w)) as [[e|i] s'].
    { exists 0%nat. split; [lia|]. by rewrite <- app_assoc. }
    cbv zeta. destruct (py_index sequence i) as [e|x] eqn:Hx.
    { exists 0%nat. split; [lia|]. by rewrite <- app_assoc. }
    apply py_index_elem in Hx.
    set (w1 := mkWorld s' _). specialize (IH w1). unfold bind.
    destruct (draws rng sequence n w1) as [[e|xs] w2].
    + destruct IH as (k & Hk & Hcalls). exists (S k). split; [lia|].
      rewrite Hcalls. subst w1. simpl calls.
      rewrite (draw_calls_S _ (S k)). by rewrite <- !app_assoc.
    + destruct IH as (Hlen & Hall & Hcalls). unfold ret.
      split; [simpl; by rewrite Hlen|]. split; [by constructor|].
      rewrite Hcalls. subst w1. simpl calls.
      rewrite draw_calls_S. by rewrite <- !app_assoc.
Qed.

(** A draw from an empty sequence raises, whatever the source answers. *)
Lemma choice_nil {A} (rng : Rng) (w : World Src) :
  ∃ e w', choice rng (@nil A) w = (inl e, w').
Proof.
  rewrite choice_eq.
  destruct (randbelow_impl rng (len (@nil A)) (source w)) as [[e|i] s'];
    [by eauto|].
  cbv zeta. rewrite py_index_nil. eauto.
Qed.

End DrawFacts.

(** ** The passphrase generator, continued *)

Section PassPhraseMore.
Import PassPhraseGenerator.
Context {Rng Src : Type} `{!RngBase Rng Src}.

Lemma py_range_to_nat (n : Z) : py_range n = seqZ 0 (Z.of_nat (Z.to_nat n)).
Proof. unfold py_range, seqZ. by rewrite Nat2Z.id. Qed.

(** [get_phrase] in one equation, for any count: a count below zero draws
    nothing, as [range] is then empty. *)
Lemma get_phrase_eq_any (wordlist : list string) (rng : Rng) (delimiter : string)
    (count : Z) (w : World Src) :
  wordlist ≠ [] → (String.length delimiter ≤ 1)%nat →
  get_phrase (mk wordlist rng delimiter) count w =
  match draws rng wordlist (Z.to_nat count) w with
  | (inr words, w') =>
      (inr (mkPassPhraseResult (str_join delimiter words)
              (IZR count * log2 (IZR (len wordlist)))%R
              (entropyIsGuaranteed wordlist delimiter count)), w')
  | (inl e, w') => (inl e, w')
  end.
Proof.
  intros Hne Hlen. unfold get_phrase. rewrite py_range_to_nat.
  unfold bind at 1.
  rewrite (mapM_range_draws rng wordlist) by done.
  destruct (draws rng wordlist (Z.to_nat count) w) as [[e|words] w']; [done|].
  unfold bind, lift, ret, _entropy_per_word, math_log2. simpl _wordlist.
  assert (Hpos : (len wordlist <=? 0) = false).
  { apply Z.leb_gt. unfold len. destruct wordlist; [done|]. simpl length. lia. }
  rewrite Hpos.
  by rewrite (entropy_is_guaranteed_eq wordlist rng delimiter count).
Qed.

(** With an empty wordlist [get_phrase] raises: [math.log2(0)] for a count
    of zero or less, the first draw otherwise. *)
Lemma get_phrase_empty_raises (rng : Rng) (delimiter : string) (count : Z)
    (w : World Src) :
  ∃ e w', get_phrase (mk [] rng delimiter) count w = (inl e, w')
    ∧ (count ≤ 0 → e = ValueError ∧ w' = w).
Proof.
  unfold get_phrase. rewrite py_range_to_nat. unfold bind at 1.
  rewrite (mapM_range_draws rng []) by done.
  destruct (Z.to_nat count) as [|n] eqn:Hn.
  - simpl. exists ValueError, w. by split.
  - simpl draws. unfold bind at 1.
    destruct (choice_nil (A := string) rng w) as (e & w' & ->).
    exists e, w'. split; [done|]. lia.
Qed.

(** X4.  Every phrase that [get_phrase] returns is the join of exactly
    [count] words (none for a count below zero), each of them a word of the
    wordlist, whatever values the random source gives. *)
Theorem get_phrase_words_from_wordlist
    (wordlist : list string) (rng : Rng) (delimiter : string)
    (self : t Rng) (count : Z) (w w' : World Src) (result : PassPhraseResult) :
  __init__ wordlist rng delimiter = inr self →
  get_phrase self count w = (inr result, w') →
  ∃ words, phrase result = str_join delimiter words
    ∧ length words = Z.to_nat count
    ∧ Forall (λ word, word ∈ wordlist) words.
Proof.
  intros [-> Hlen]%init_inv Hrun.
  destruct (decide (wordlist = [])) as [->|Hne].
  - (* an empty wordlist never gives a result *)
    destruct (get_phrase_empty_raises rng delimiter count w)
      as (e & w1 & Hfail & _). congruence.
  - rewrite get_phrase_eq_any in Hrun by done.
    pose proof (draws_inv rng wordlist (Z.to_nat count) w) as Hinv.
    destruct (draws rng wordlist (Z.to_nat count) w) as [[e|words] w1];
      [done|].
    destruct Hinv as (Hlength & Hall & _). injection Hrun as <- <-.
    by exists words.
Qed.

(** X5.  [get_phrase] draws from the random source exactly [count] times
    when it returns, and at most [count] times when a draw raises; every
    draw is one [choice] over the whole wordlist. *)
Theorem get_phrase_draw_count
    (wordlist : list string) (rng : Rng) (delimiter : string)
    (self : t Rng) (count : Z) (w : World Src) :
  wordlist ≠ [] →
  __init__ wordlist rng delimiter = inr self →
  match get_phrase self count w with
  | (inr _, w') =>
      calls w' = calls w ++ draw_calls (len wordlist) (Z.to_nat count)
  | (inl _, w') =>
      ∃ k, (k < Z.to_nat count)%nat
        ∧ calls w' = calls w ++ draw_calls (len wordlist) (S k)
  end.
Proof.
  intros Hne [-> Hlen]%init_inv. rewrite get_phrase_eq_any by done.
  pose proof (draws_inv rng wordlist (Z.to_nat count) w) as Hinv.
  destruct (draws rng wordlist (Z.to_nat count) w) as [[e|words] w1]; [done|].
  by destruct Hinv as (_ & _ & Hcalls).
Qed.

(** X6.  With an empty wordlist [get_phrase] never returns a phrase: for a
    count of zero or less it raises [ValueError] without drawing, otherwise
    the first draw raises, whatever the delimiter and the random source. *)
Theorem get_phrase_empty_wordlist (rng : Rng) (delimiter : string) (count : Z)
    (w : World Src) :
  ∃ e w', get_phrase (mk [] rng delimiter) count w = (inl e, w')
    ∧ (count ≤ 0 → e = ValueError ∧ w' = w).
Proof. apply get_phrase_empty_raises. Qed.


(** The flag being true for two words or more means a delimiter of one
    character that occurs in no word. *)
Lemma guaranteed_delimiter (wordlist : list string) (delimiter : string)
    (count : Z) :
  entropyIsGuaranteed wordlist delimiter count = true → 2 ≤ count →
  (String.length delimiter ≤ 1)%nat →
  ∃ c, delimiter = String c EmptyString
    ∧ Forall (λ word, char_occurs c word = false) wordlist.
Proof.
  unfold entropyIsGuaranteed. intros Hflag Hcount Hlen.
  rewrite (proj2 (Z.leb_gt count 1)) in Hflag by lia.
  destruct (delimiter_cases delimiter Hlen) as [->|[c ->]]; [done|].
  exists c. split; [done|].
  destruct (existsb (char_occurs c) wordlist) eqn:Hex; [done|].
  apply Forall_forall. intros word Hword.
  apply not_true_is_false. intros Hocc.
  assert (existsb (char_occurs c) wordlist = true); [|congruence].
  apply existsb_exists. exists word. split; [|done]. by apply list_elem_of_In.
Qed.


(** X9.  When [get_phrase] returns a phrase of two words or more with the
    flag set, the delimiter is one character and splitting the phrase at it
    gives back the words that were drawn, in draw order. *)
Theorem guaranteed_phrase_splits
    (wordlist : list string) (rng : Rng) (delimiter : string)
    (self : t Rng) (count : Z) (w w' : World Src) (result : PassPhraseResult) :
  2 ≤ count →
  __init__ wordlist rng delimiter = inr self →
  get_phrase self count w = (inr result, w') →
  entropy_is_guaranteed result = true →
  ∃ c words, delimiter = String c EmptyString
    ∧ draws rng wordlist (Z.to_nat count) w = (inr words, w')
    ∧ str_split c (phrase result) = words.
Proof.
  intros Hcount [-> Hlen]%init_inv Hrun Hflag.
  destruct (decide (wordlist = [])) as [->|Hne].
  { destruct (get_phrase_empty_raises rng delimiter count w)
      as (e & w1 & Hfail & _). congruence. }
  rewrite get_phrase_eq_any in Hrun by done.
  pose proof (draws_inv rng wordlist (Z.to_nat count) w) as Hinv.
  destruct (draws rng wordlist (Z.to_nat count) w) as [[e|words] w1]; [done|].
  destruct Hinv as (Hlength & Hall & _). injection Hrun as <- <-.
  simpl in Hflag.
  destruct (guaranteed_delimiter _ _ _ Hflag Hcount Hlen) as (c & -> & Hfree).
  exists c, words. split; [done|]. split; [done|]. simpl.
  apply str_split_join.
  - intros ->. simpl in Hlength. lia.
  - rewrite Forall_forall in Hall, Hfree |- *. auto.
Qed.

End PassPhraseMore.

(** ** The password generator, continued *)

Section Log2Facts.

Lemma log2_1 : log2 (IZR 1) = 0%R.
Proof. unfold log2. rewrite ln_1. pose proof ln_lt_2. field. lra. Qed.

Lemma log2_le (x y : R) : (0 < x)%R → (x <= y)%R → (log2 x <= log2 y)%R.
Proof.
  intros Hx Hxy. unfold log2. pose proof ln_lt_2.
  apply Rmult_le_compat_r; [left; apply Rinv_0_lt_compat; lra|].
  destruct Hxy as [Hlt| ->]; [|lra]. left. by apply ln_increasing.
Qed.

Lemma log2_nonneg (n : Z) : 1 ≤ n → (0 <= log2 (IZR n))%R.
Proof.
  intros Hn. rewrite <- log2_1. apply log2_le; [lra|]. by apply IZR_le.
Qed.

End Log2Facts.

Section JoinFacts.

(** Characters joined by the empty string are the characters of the
    result. *)
Lemma str_iter_join_chars (chars : list string) :
  Forall (λ c, String.length c = 1%nat) chars →
  str_iter (str_join "" chars) = chars.
Proof.
  induction 1 as [|c chars Hc Hall IH]; [done|].
  destruct c as [|a [|b rest]]; simpl in Hc; try lia.
  destruct (decide (chars = [])) as [->|Hne]; [done|].
  rewrite str_join_cons by done.
  rewrite str_app_cons, !str_app_nil. simpl. by rewrite IH.
Qed.

Lemma str_iter_length (s : string) : length (str_iter s) = String.length s.
Proof. induction s; simpl; by f_equal. Qed.

Lemma str_iter_chars (s : string) :
  Forall (λ c, String.length c = 1%nat) (str_iter s).
Proof. induction s; simpl; by constructor. Qed.

Lemma str_iter_nonempty (s : string) : s ≠ EmptyString → str_iter s ≠ [].
Proof. by destruct s. Qed.

Lemma elem_of_str_iter_inv (token : string) (s : string) :
  token ∈ str_iter s → ∃ c, token = String c EmptyString ∧ char_occurs c s = true.
Proof.
  induction s as [|a s IH]; simpl; [by intros ?%elem_of_nil|].
  intros [->|Hin]%elem_of_cons.
  - exists a. split; [done|]. by rewrite bool_decide_true.
  - destruct (IH Hin) as (c & -> & Hc). exists c. split; [done|].
    rewrite Hc. by destruct (bool_decide _).
Qed.

End JoinFacts.

Section AlphabetMore.
Import PasswordGenerator.

Lemma sorted_set_length_le (alphabet : list string) :
  (length (sorted_set alphabet) ≤ length alphabet)%nat.
Proof.
  apply submseteq_length, NoDup_submseteq; [apply sorted_set_NoDup|].
  intros c. by rewrite elem_of_sorted_set.
Qed.

Lemma sorted_set_length_eq (alphabet : list string) :
  length (sorted_set alphabet) = length alphabet ↔ NoDup alphabet.
Proof.
  split.
  - intros Hlen.
    assert (Hperm : sorted_set alphabet ≡ₚ alphabet).
    { apply submseteq_length_Permutation; [|lia].
      apply NoDup_submseteq; [apply sorted_set_NoDup|].
      intros c. by rewrite elem_of_sorted_set. }
    rewrite <- Hperm. apply sorted_set_NoDup.
  - intros Hnodup. apply Permutation_length, NoDup_Permutation;
      [apply sorted_set_NoDup|done|apply elem_of_sorted_set].
Qed.

Lemma sorted_set_idemp (alphabet : list string) :
  sorted_set (sorted_set alphabet) = sorted_set alphabet.
Proof. apply sorted_set_ext, elem_of_sorted_set. Qed.

Lemma sorted_set_chars (alphabet : list string) :
  Forall (λ c, String.length c = 1%nat) alphabet →
  Forall (λ c, String.length c = 1%nat) (sorted_set alphabet).
Proof.
  rewrite !Forall_forall. intros Hall c Hc. by apply Hall, elem_of_sorted_set.
Qed.

End AlphabetMore.

Section PasswordMore.
Import PasswordGenerator.
Context {Rng Src : Type} `{!RngBase Rng Src}.

Lemma generate_eq_any (alphabet : list string) (rng : Rng) (length : Z)
    (w : World Src) :
  alphabet ≠ [] →
  generate (mk alphabet rng) length w =
  match draws rng alphabet (Z.to_nat length) w with
  | (inr chars, w') =>
      (inr (mkPasswordResult (str_join "" chars)
              (IZR length * log2 (IZR (len alphabet)))%R), w')
  | (inl e, w') => (inl e, w')
  end.
Proof.
  intros Hne. unfold generate. rewrite py_range_to_nat.
  unfold bind at 1.
  rewrite (mapM_range_draws rng alphabet) by done.
  destruct (draws rng alphabet (Z.to_nat length) w) as [[e|chars] w']; [done|].
  unfold bind, lift, ret, _entropy_per_char, math_log2. simpl _alphabet.
  assert (Hpos : (len alphabet <=? 0) = false).
  { apply Z.leb_gt. unfold len. destruct alphabet; [done|]. simpl. lia. }
  by rewrite Hpos.
Qed.

(** The characters of a password: as many as asked, each of the alphabet. *)
Lemma generate_characters
    (alphabet : list string) (rng : Rng) (length : Z)
    (w w' : World Src) (result : PasswordResult) :
  alphabet ≠ [] → Forall (λ c, String.length c = 1%nat) alphabet →
  generate (mk (sorted_set alphabet) rng) length w = (inr result, w') →
  String.length (password result) = Z.to_nat length
  ∧ Forall (λ c, c ∈ alphabet) (str_iter (password result)).
Proof.
  intros Hne Hall Hrun.
  rewrite generate_eq_any in Hrun by (by apply sorted_set_nonempty).
  pose proof (draws_inv rng (sorted_set alphabet) (Z.to_nat length) w) as Hinv.
  destruct (draws rng (sorted_set alphabet) (Z.to_nat length) w)
    as [[e|chars] w1]; [done|].
  destruct Hinv as (Hlength & Hin & _). injection Hrun as <- <-. simpl.
  assert (Hchars : Forall (λ c, String.length c = 1%nat) chars).
  { pose proof (sorted_set_chars alphabet Hall) as Hs.
    rewrite Forall_forall in Hin, Hs |- *. auto. }
  split.
  - rewrite <- str_iter_length, str_iter_join_chars by done. done.
  - rewrite str_iter_join_chars by done.
    rewrite Forall_forall in Hin |- *. intros c Hc.
    by apply elem_of_sorted_set, Hin.
Qed.

(** X10.  Every password that [generate] returns has exactly [length]
    characters (none for a length below zero), each of them a character of
    the alphabet the generator was built from, whatever values the random
    source gives. *)
Theorem password_characters
    (alphabet : list string) (rng : Rng) (self : t Rng) (length : Z)
    (w w' : World Src) (result : PasswordResult) :
  __init__ alphabet rng = inr self →
  generate self length w = (inr result, w') →
  String.length (password result) = Z.to_nat length
  ∧ Forall (λ c, c ∈ alphabet) (str_iter (password result)).
Proof.
  intros (-> & Hne & Hall)%password_init_inv Hrun.
  by apply (generate_characters alphabet rng length w w').
Qed.

(** X11.  [generate] draws from the random source exactly [length] times
    when it returns, and at most [length] times when a draw raises; every
    draw is one [choice] over the deduplicated alphabet. *)
Theorem generate_draw_count
    (alphabet : list string) (rng : Rng) (self : t Rng) (length : Z)
    (w : World Src) :
  __init__ alphabet rng = inr self →
  match generate self length w with
  | (inr _, w') =>
      calls w' = calls w
                 ++ draw_calls (len (_alphabet self)) (Z.to_nat length)
  | (inl _, w') =>
      ∃ k, (k < Z.to_nat length)%nat
        ∧ calls w' = calls w ++ draw_calls (len (_alphabet self)) (S k)
  end.
Proof.
  intros (-> & Hne & Hall)%password_init_inv.
  rewrite generate_eq_any by (by apply sorted_set_nonempty). simpl _alphabet.
  pose proof (draws_inv rng (sorted_set alphabet) (Z.to_nat length) w) as Hinv.
  destruct (draws rng (sorted_set alphabet) (Z.to_nat length) w)
    as [[e|chars] w1]; [done|].
  by destruct Hinv as (_ & _ & Hcalls).
Qed.

(** X12.  Duplicates in the alphabet do not count: the generator holds at
    least one and at most [len(alphabet)] characters, exactly
    [len(alphabet)] when the alphabet has no duplicate, and the entropy of
    a password of [length] characters lies between 0 and
    [length * log2(len(alphabet))]. *)
Theorem duplicates_do_not_count
    (alphabet : list string) (rng : Rng) (self : t Rng) :
  __init__ alphabet rng = inr self →
  1 ≤ len (_alphabet self) ≤ len alphabet
  ∧ (len (_alphabet self) = len alphabet ↔ NoDup alphabet)
  ∧ ∀ length w w' result,
      0 ≤ length →
      generate self length w = (inr result, w') →
      (0 <= entropy result <= IZR length * log2 (IZR (len alphabet)))%R.
Proof.
  intros (-> & Hne & Hall)%password_init_inv. simpl _alphabet.
  pose proof (sorted_set_nonempty alphabet Hne) as Hne'.
  pose proof (sorted_set_length_le alphabet) as Hle.
  assert (Hone : 1 ≤ len (sorted_set alphabet)).
  { unfold len. destruct (sorted_set alphabet); [done|]. simpl. lia. }
  split; [unfold len in *; lia|]. split.
  - unfold len. rewrite <- sorted_set_length_eq. lia.
  - intros length w w' result Hlength Hrun.
    rewrite generate_eq_any in Hrun by done.
    destruct (draws rng _ (Z.to_nat length) w) as [[e|chars] w1]; [done|].
    injection Hrun as <- <-. simpl.
    assert (Hl : (0 <= IZR length)%R) by (by apply IZR_le).
    pose proof (log2_nonneg _ Hone) as Hn.
    assert (Hm : (log2 (IZR (len (sorted_set alphabet)))
                  <= log2 (IZR (len alphabet)))%R).
    { apply log2_le; [apply IZR_lt; lia|]. apply IZR_le. unfold len. lia. }
    split; [by apply Rmult_le_pos|by apply Rmult_le_compat_l].
Qed.

(** X13.  A generator built from the alphabet that another generator holds
    is that generator: deduplicating and sorting twice changes nothing. *)
Theorem init_from_own_alphabet
    (alphabet : list string) (rng : Rng) (self : t Rng) :
  __init__ alphabet rng = inr self →
  __init__ (_alphabet self) rng = inr self.
Proof.
  intros (-> & Hne & Hall)%password_init_inv. simpl _alphabet.
  rewrite password_init_ok;
    [by rewrite sorted_set_idemp|by apply sorted_set_nonempty
    |by apply sorted_set_chars].
Qed.


End PasswordMore.

(** ** The registry and the command [pw] *)

Section RegistryMore.
Import Registry.
Context {Rng : Type}.
Variable rng_new : RngCls → list (string * Z) → PyError + Rng.

Lemma available_cases (random_source : string) :
  random_source ∈ available_random_sources →
  random_source = "system" ∨ random_source = "dice".
Proof.
  unfold available_random_sources. simpl. rewrite !elem_of_cons.
  intros [?|[?|[]%elem_of_nil]]; auto.
Qed.

Lemma get_rng_system (possible_options : gmap string Z) :
  get_rng rng_new "system" possible_options = rng_new SystemRng [].
Proof. reflexivity. Qed.

Lemma get_rng_dice (possible_options : gmap string Z) :
  get_rng rng_new "dice" possible_options =
  match possible_options !! "dice_sides" with
  | Some n => rng_new DiceRng [("num_sides", n)]
  | None => inl (KeyError "dice_sides")
  end.
Proof.
  unfold get_rng. simpl.
  by destruct (possible_options !! "dice_sides").
Qed.

(** X1.  For a source name of the registry [get_rng] calls the constructor
    of its class: [SystemRng()] for system, whatever the options, and
    [DiceRng(num_sides=n)] for dice, where [n] is the option dice_sides; when
    that option is missing it raises [KeyError]. *)
Theorem get_rng_available (random_source : string)
    (possible_options : gmap string Z) :
  random_source ∈ available_random_sources →
  get_rng rng_new random_source possible_options =
  if bool_decide (random_source = "system") then rng_new SystemRng []
  else match possible_options !! "dice_sides" with
       | Some n => rng_new DiceRng [("num_sides", n)]
       | None => inl (KeyError "dice_sides")
       end.
Proof.
  intros [->| ->]%available_cases.
  - apply get_rng_system.
  - apply get_rng_dice.
Qed.

(** X2.  Options that the registry entry of the source does not name are
    ignored: two option dicts that agree on the named ones give the same
    result. *)
Theorem get_rng_ignores_other_options (random_source : string)
    (options1 options2 : gmap string Z) :
  (∀ cls args kw o,
     (random_source, (cls, args)) ∈ _rng_registry → (kw, o) ∈ args →
     options1 !! o = options2 !! o) →
  get_rng rng_new random_source options1
  = get_rng rng_new random_source options2.
Proof.
  intros Hsame.
  destruct (decide (random_source ∈ available_random_sources)) as [Hin|Hout].
  - apply available_cases in Hin as [->| ->].
    + by rewrite !get_rng_system.
    + rewrite !get_rng_dice.
      rewrite (Hsame DiceRng [("num_sides", "dice_sides")] "num_sides"
                 "dice_sides"); [done| |].
      * unfold _rng_registry. rewrite !elem_of_cons. by right; left.
      * by apply list_elem_of_singleton.
  - by rewrite !get_rng_unknown.
Qed.

(** X3.  The default randomness source is a name of the registry, and
    [get_rng] builds its generator without needing any option. *)
Theorem default_source_is_available :
  ∃ name, default_randomness_source = inr name
    ∧ name ∈ available_random_sources
    ∧ ∀ possible_options,
        get_rng rng_new name possible_options = rng_new SystemRng [].
Proof.
  exists "system". split; [reflexivity|]. split.
  - unfold available_random_sources. simpl. rewrite !elem_of_cons. by left.
  - apply get_rng_system.
Qed.

End RegistryMore.

Section CommandsMore.
Context {Rng Src : Type} `{!RngBase Rng Src}.
Variable rng_new : Registry.RngCls → list (string * Z) → PyError + Rng.
Variable alphabet_from_charset_names : list string → PyError + string.

Lemma char_occurs_filter (keep : Ascii.ascii → bool) (c : Ascii.ascii)
    (s : string) :
  char_occurs c (str_filter keep s) = char_occurs c s && keep c.
Proof.
  induction s as [|a s IH]; simpl; [done|].
  destruct (keep a) eqn:Ha; simpl; rewrite IH;
    (case_bool_decide as Hc; [subst a; rewrite Ha|]);
    by destruct (char_occurs c s), (keep c).
Qed.

Lemma char_occurs_app (c : Ascii.ascii) (s1 s2 : string) :
  char_occurs c (s1 +:+ s2) = char_occurs c s1 || char_occurs c s2.
Proof.
  induction s1 as [|a s1 IH]; [done|].
  rewrite str_app_cons. simpl. rewrite IH. by rewrite orb_assoc.
Qed.

(** The alphabet that [pw] hands to the generator holds no excluded
    character, and only characters that were included or come from a
    preset. *)
Lemma pw_alpha_chars (alpha_include alpha_preset alpha_exclude : option string)
    (alpha : string) (c : Ascii.ascii) :
  CommandLine.pw_alpha alphabet_from_charset_names alpha_include alpha_preset
    alpha_exclude = inr alpha →
  char_occurs c alpha = true →
  (∀ excluded, alpha_exclude = Some excluded → char_occurs c excluded = false)
  ∧ ((∃ included, alpha_include = Some included
        ∧ char_occurs c included = true)
     ∨ (∃ names preset, alpha_preset = Some names
          ∧ alphabet_from_charset_names (str_split ","%char names) = inr preset
          ∧ char_occurs c preset = true)).
Proof.
  unfold CommandLine.pw_alpha. intros Halpha Hc.
  set (base := if truthy alpha_include then default "" alpha_include else "")
    in Halpha.
  assert (Hbase : char_occurs c base = true →
                  ∃ included, alpha_include = Some included
                    ∧ char_occurs c included = true).
  { subst base. destruct alpha_include as [[|a s]|]; simpl; try done.
    intros Ha. by eexists. }
  destruct (truthy alpha_preset) eqn:Hpreset.
  - destruct alpha_preset as [names|]; [|done]. simpl in Halpha.
    destruct (alphabet_from_charset_names _) as [e|preset] eqn:Hnames;
      [done|]. simpl in Halpha. injection Halpha as <-.
    assert (Hmerged : char_occurs c (base +:+ preset) = true
                      ∧ ∀ excluded, alpha_exclude = Some excluded →
                                    char_occurs c excluded = false).
    { destruct (truthy alpha_exclude) eqn:Hex.
      - rewrite char_occurs_filter in Hc.
        apply andb_true_iff in Hc as [Hc Hkeep]. split; [done|].
        intros excluded ->. simpl in Hkeep. by apply negb_true_iff in Hkeep.
      - split; [done|]. intros excluded ->.
        destruct excluded; [done|]. done. }
    destruct Hmerged as [Hin Hex]. split; [done|].
    rewrite char_occurs_app in Hin. apply orb_true_iff in Hin as [Hin|Hin].
    + left. by apply Hbase.
    + right. by exists names, preset.
  - simpl in Halpha. injection Halpha as <-.
    assert (Hmerged : char_occurs c base = true
                      ∧ ∀ excluded, alpha_exclude = Some excluded →
                                    char_occurs c excluded = false).
    { destruct (truthy alpha_exclude) eqn:Hex.
      - rewrite char_occurs_filter in Hc.
        apply andb_true_iff in Hc as [Hc Hkeep]. split; [done|].
        intros excluded ->. simpl in Hkeep. by apply negb_true_iff in Hkeep.
      - split; [done|]. intros excluded ->.
        destruct excluded; [done|]. done. }
    destruct Hmerged as [Hin Hex]. split; [done|]. left. by apply Hbase.
Qed.

(** The body of [pw] is the merging of the options followed by the
    generation call on the merged alphabet. *)
Lemma pw_try_eq (length : option Z) (randomness_source : string)
    (dice_sides : Z) (alpha_include alpha_preset alpha_exclude : option string)
    (w : World Src) :
  CommandLine.pw_try rng_new alphabet_from_charset_names length
    randomness_source dice_sides alpha_include alpha_preset alpha_exclude w =
  match py_assert (match length with
                   | Some n => negb (n =? 0)
                   | None => false
                   end) "Missing option --length." with
  | inl e => (inl e, w)
  | inr _ =>
      match CommandLine.pw_alpha alphabet_from_charset_names alpha_include
              alpha_preset alpha_exclude with
      | inl e => (inl e, w)
      | inr alpha =>
          Commands.pw_generate rng_new length randomness_source dice_sides
            alpha w
      end
  end.
Proof.
  unfold CommandLine.pw_try, Commands.pw_generate, bind, lift.
  destruct (py_assert _ "Missing option --length.") as [e|[]]; [done|].
  by destruct (CommandLine.pw_alpha _ _ _ _) as [e|alpha].
Qed.

End CommandsMore.

Section CommandsThms.
Context {Rng Src : Type} `{!RngBase Rng Src}.
Variable rng_new : Registry.RngCls → list (string * Z) → PyError + Rng.
Variable alphabet_from_charset_names : list string → PyError + string.

(** The generation call of [pw], once the length and the alphabet have
    passed its own checks: the generator's checks cannot fail. *)
Lemma pw_generate_eq (n : Z) (randomness_source : string) (dice_sides : Z)
    (alpha : string) (w : World Src) :
  n ≠ 0 → alpha ≠ EmptyString →
  Commands.pw_generate rng_new (Some n) randomness_source dice_sides alpha w =
  match Registry.get_rng rng_new randomness_source
          {[ "dice_sides" := dice_sides ]} with
  | inl e => (inl e, w)
  | inr rng =>
      PasswordGenerator.generate
        (PasswordGenerator.mk (PasswordGenerator.sorted_set (str_iter alpha))
           rng) n w
  end.
Proof.
  intros Hn Halpha. unfold Commands.pw_generate, bind, lift, py_assert.
  rewrite (proj2 (Z.eqb_neq n 0)) by done. simpl negb. cbv iota.
  rewrite bool_decide_false by done. simpl negb. cbv iota.
  destruct (Registry.get_rng _ _ _) as [e|rng]; [done|].
  rewrite password_init_ok;
    [done|by apply str_iter_nonempty|apply str_iter_chars].
Qed.

Lemma pw_generate_empty (n : Z) (randomness_source : string) (dice_sides : Z)
    (w : World Src) :
  n ≠ 0 →
  Commands.pw_generate rng_new (Some n) randomness_source dice_sides "" w =
  (inl (AssertionError
          "No alphabet given. Did you forget --alphabet or alphabet-names?"), w).
Proof.
  intros Hn. unfold Commands.pw_generate, bind, lift, py_assert.
  by rewrite (proj2 (Z.eqb_neq n 0)) by done.
Qed.

(** X15.  The body of [pw] in one equation: a missing or zero length is
    refused first, then an error of the preset lookup is passed on, then an
    empty alphabet is refused, then the source is built, and only then
    characters are drawn; the checks of the generator itself cannot fail. *)
Theorem pw_try_outcomes (length : option Z) (randomness_source : string)
    (dice_sides : Z) (alpha_include alpha_preset alpha_exclude : option string)
    (w : World Src) :
  CommandLine.pw_try rng_new alphabet_from_charset_names length
    randomness_source dice_sides alpha_include alpha_preset alpha_exclude w =
  match length with
  | None | Some 0 => (inl (AssertionError "Missing option --length."), w)
  | Some n =>
      match CommandLine.pw_alpha alphabet_from_charset_names alpha_include
              alpha_preset alpha_exclude with
      | inl e => (inl e, w)
      | inr EmptyString =>
          (inl (AssertionError
                  "No alphabet given. Did you forget --alphabet or alphabet-names?"),
           w)
      | inr alpha =>
          match Registry.get_rng rng_new randomness_source
                  {[ "dice_sides" := dice_sides ]} with
          | inl e => (inl e, w)
          | inr rng =>
              PasswordGenerator.generate
                (PasswordGenerator.mk
                   (PasswordGenerator.sorted_set (str_iter alpha)) rng) n w
          end
      end
  end.
Proof.
  rewrite pw_try_eq. destruct length as [[|n|n]|]; try done.
  - simpl py_assert. cbv iota.
    destruct (CommandLine.pw_alpha _ _ _ _) as [e|[|a s]]; [done| |].
    + by rewrite pw_generate_empty.
    + by rewrite pw_generate_eq.
  - simpl py_assert. cbv iota.
    destruct (CommandLine.pw_alpha _ _ _ _) as [e|[|a s]]; [done| |].
    + by rewrite pw_generate_empty.
    + by rewrite pw_generate_eq.
Qed.

(** X16.  A password that [pw] generates has the requested number of
    characters, none of which is an excluded character, and each of which
    was included or comes from a preset. *)
Theorem pw_password_avoids_excluded (length : option Z)
    (randomness_source : string) (dice_sides : Z)
    (alpha_include alpha_preset alpha_exclude : option string)
    (w w' : World Src) (result : PasswordGenerator.PasswordResult) :
  CommandLine.pw_try rng_new alphabet_from_charset_names length
    randomness_source dice_sides alpha_include alpha_preset alpha_exclude w
  = (inr result, w') →
  ∃ n, length = Some n ∧ n ≠ 0
    ∧ String.length (PasswordGenerator.password result) = Z.to_nat n
    ∧ Forall (λ token, ∃ c, token = String c EmptyString
        ∧ (∀ excluded, alpha_exclude = Some excluded →
                       char_occurs c excluded = false)
        ∧ ((∃ included, alpha_include = Some included
              ∧ char_occurs c included = true)
           ∨ (∃ names preset, alpha_preset = Some names
                ∧ alphabet_from_charset_names (str_split ","%char names)
                  = inr preset
                ∧ char_occurs c preset = true)))
        (str_iter (PasswordGenerator.password result)).
Proof.
  rewrite pw_try_eq. intros Hrun.
  destruct length as [n|]; [|done]. simpl in Hrun.
  destruct (n =? 0) eqn:Hn; [done|]. apply Z.eqb_neq in Hn. simpl in Hrun.
  destruct (CommandLine.pw_alpha _ _ _ _) as [e|alpha] eqn:Halpha; [done|].
  destruct (decide (alpha = EmptyString)) as [->|Hne].
  { by rewrite pw_generate_empty in Hrun. }
  rewrite pw_generate_eq in Hrun by done.
  destruct (Registry.get_rng _ _ _) as [e|rng]; [done|].
  apply generate_characters in Hrun as [Hlength Hin];
    [|by apply str_iter_nonempty|apply str_iter_chars].
  exists n. split; [done|]. split; [done|]. split; [done|].
  rewrite Forall_forall in Hin |- *. intros token Htoken.
  destruct (elem_of_str_iter_inv _ _ (Hin _ Htoken)) as (c & -> & Hc).
  exists c. split; [done|].
  by apply (pw_alpha_chars alphabet_from_charset_names alpha_include
              alpha_preset alpha_exclude alpha).
Qed.

End CommandsThms.

Section DiceTest.
Import Dice.

(** Batches that are malformed or rejected are skipped; the first batch
    that is accepted gives the value. *)
Lemma randbelow_loop_skips (num_sides upper : Z) (plan : DiceFrame)
    (skipped : list (list Z)) (batch : list Z) (rest : list (list Z)) :
  Forall (λ b, valid_batch num_sides (required_num_rolls plan) b = false
               ∨ upper_multiple plan ≤ rolls_to_value num_sides b) skipped →
  valid_batch num_sides (required_num_rolls plan) batch = true →
  rolls_to_value num_sides batch < upper_multiple plan →
  randbelow_loop num_sides upper plan (skipped ++ batch :: rest)
  = (Some (rolls_to_value num_sides batch `mod` upper), rest).
Proof.
  intros Hskipped Hvalid Hbelow.
  induction Hskipped as [|b skipped Hb _ IH]; simpl.
  - rewrite Hvalid. by rewrite (proj2 (Z.ltb_lt _ _)) by done.
  - destruct Hb as [->|Hb]; [done|].
    destruct (valid_batch _ _ b); [|done].
    by rewrite (proj2 (Z.ltb_ge _ _)) by done.
Qed.

(** X17.  What test_randbelow expects, for any frame: when every batch but
    the last is rejected and the last one is accepted, the draw consumes all
    the batches and returns the value of the last one modulo [upper], a
    number from 0 to [upper - 1]. *)
Theorem randbelow_uses_accepted_batch (num_sides upper : Z) (p : Q)
    (plan : DiceFrame) (rejected : list (list Z)) (last : list Z) :
  0 < upper →
  compute_dice_frame num_sides upper p = Some plan →
  Forall (λ b, upper_multiple plan ≤ rolls_to_value num_sides b) rejected →
  valid_batch num_sides (required_num_rolls plan) last = true →
  rolls_to_value num_sides last < upper_multiple plan →
  ∃ value,
    DiceRng_randbelow (mkDiceRng num_sides p) upper (rejected ++ [last])
    = (Some value, [])
    ∧ value = rolls_to_value num_sides last `mod` upper
    ∧ 0 ≤ value < upper.
Proof.
  intros Hupper Hplan Hrejected Hvalid Hbelow.
  eexists. split; [|split; [reflexivity|by apply Z.mod_pos_bound]].
  unfold DiceRng_randbelow. simpl. rewrite Hplan.
  apply randbelow_loop_skips; [|done..].
  eapply Forall_impl; [exact Hrejected|]. intros b Hb. by right.
Qed.

End DiceTest.

Section PwNegative.
Context {Rng Src : Type} `{!RngBase Rng Src}.
Variable rng_new : Registry.RngCls → list (string * Z) → PyError + Rng.
Variable alphabet_from_charset_names : list string → PyError + string.


End PwNegative.

(** ** Runs on the scripted source *)

Lemma get_rng_available_witness :
  ("dice" ∈ Registry.available_random_sources)
  ∧ Registry.get_rng scripted_new "dice" {[ "dice_sides" := 6 ]} =
    if bool_decide ("dice" = "system") then scripted_new Registry.SystemRng []
    else match ({[ "dice_sides" := 6 ]} : gmap string Z) !! "dice_sides" with
         | Some n => scripted_new Registry.DiceRng [("num_sides", n)]
         | None => inl (KeyError "dice_sides")
         end.
Proof.
  assert (H1 : "dice" ∈ Registry.available_random_sources).
  { unfold Registry.available_random_sources. simpl. rewrite !elem_of_cons.
    by right; left. }
  exact (conj H1 (get_rng_available scripted_new "dice" _ H1)).
Defined.

Lemma get_rng_ignores_other_options_witness :
  (∀ cls args kw o,
     ("dice", (cls, args)) ∈ Registry._rng_registry → (kw, o) ∈ args →
     ({[ "dice_sides" := 6 ]} : gmap string Z) !! o
     = (<[ "length" := 4 ]> {[ "dice_sides" := 6 ]} : gmap string Z) !! o)
  ∧ Registry.get_rng scripted_new "dice" {[ "dice_sides" := 6 ]}
    = Registry.get_rng scripted_new "dice"
        (<[ "length" := 4 ]> {[ "dice_sides" := 6 ]}).
Proof.
  assert (H1 : ∀ cls args kw o,
     ("dice", (cls, args)) ∈ Registry._rng_registry → (kw, o) ∈ args →
     ({[ "dice_sides" := 6 ]} : gmap string Z) !! o
     = (<[ "length" := 4 ]> {[ "dice_sides" := 6 ]} : gmap string Z) !! o).
  { intros cls args kw o Hentry Harg. unfold Registry._rng_registry in Hentry.
    rewrite !elem_of_cons in Hentry.
    destruct Hentry as [[=]|[[= -> ->]|[]%elem_of_nil]].
    apply list_elem_of_singleton in Harg as [= -> ->]. reflexivity. }
  exact (conj H1 (get_rng_ignores_other_options scripted_new "dice" _ _ H1)).
Defined.

Lemma get_phrase_words_from_wordlist_witness :
  PassPhraseGenerator.__init__ ["cat"; "dog"] Scripted " "
  = inr (PassPhraseGenerator.mk ["cat"; "dog"] Scripted " ")
  ∧ PassPhraseGenerator.get_phrase
      (PassPhraseGenerator.mk ["cat"; "dog"] Scripted " ") 3
      (mkWorld [1; 0; -1] [])
    = (inr (PassPhraseGenerator.mkPassPhraseResult "dog cat dog"
              (IZR 3 * log2 (IZR (len ["cat"; "dog"])))%R true),
       mkWorld [] (draw_calls 2 3))
  ∧ ∃ words,
      "dog cat dog" = str_join " " words
      ∧ length words = Z.to_nat 3
      ∧ Forall (λ word, word ∈ ["cat"; "dog"]) words.
Proof.
  assert (H1 : PassPhraseGenerator.__init__ ["cat"; "dog"] Scripted " "
               = inr (PassPhraseGenerator.mk ["cat"; "dog"] Scripted " "))
    by reflexivity.
  assert (H2 : PassPhraseGenerator.get_phrase
                 (PassPhraseGenerator.mk ["cat"; "dog"] Scripted " ") 3
                 (mkWorld [1; 0; -1] [])
               = (inr (PassPhraseGenerator.mkPassPhraseResult "dog cat dog"
                         (IZR 3 * log2 (IZR (len ["cat"; "dog"])))%R true),
                  mkWorld [] (draw_calls 2 3))) by reflexivity.
  exact (conj H1 (conj H2
    (get_phrase_words_from_wordlist ["cat"; "dog"] Scripted " " _ 3 _ _ _
       H1 H2))).
Defined.

Lemma get_phrase_draw_count_witness :
  ["cat"; "dog"] ≠ []
  ∧ PassPhraseGenerator.__init__ ["cat"; "dog"] Scripted " "
    = inr (PassPhraseGenerator.mk ["cat"; "dog"] Scripted " ")
  ∧ match PassPhraseGenerator.get_phrase
            (PassPhraseGenerator.mk ["cat"; "dog"] Scripted " ") 3
            (mkWorld [1; 5] []) with
    | (inr _, w') => calls w' = [] ++ draw_calls (len ["cat"; "dog"]) (Z.to_nat 3)
    | (inl _, w') =>
        ∃ k, (k < Z.to_nat 3)%nat
          ∧ calls w' = [] ++ draw_calls (len ["cat"; "dog"]) (S k)
    end.
Proof.
  assert (H1 : ["cat"; "dog"] ≠ ([] : list string)) by discriminate.
  assert (H2 : PassPhraseGenerator.__init__ ["cat"; "dog"] Scripted " "
               = inr (PassPhraseGenerator.mk ["cat"; "dog"] Scripted " "))
    by reflexivity.
  exact (conj H1 (conj H2
    (get_phrase_draw_count ["cat"; "dog"] Scripted " " _ 3
       (mkWorld [1; 5] []) H1 H2))).
Defined.



Lemma guaranteed_phrase_splits_witness :
  2 ≤ 3
  ∧ PassPhraseGenerator.__init__ ["cat"; "dog"] Scripted " "
    = inr (PassPhraseGenerator.mk ["cat"; "dog"] Scripted " ")
  ∧ PassPhraseGenerator.get_phrase
      (PassPhraseGenerator.mk ["cat"; "dog"] Scripted " ") 3
      (mkWorld [1; 0; 1] [])
    = (inr (PassPhraseGenerator.mkPassPhraseResult "dog cat dog"
              (IZR 3 * log2 (IZR (len ["cat"; "dog"])))%R true),
       mkWorld [] (draw_calls 2 3))
  ∧ true = true
  ∧ ∃ c words, " " = String c EmptyString
      ∧ draws Scripted ["cat"; "dog"] (Z.to_nat 3) (mkWorld [1; 0; 1] [])
        = (inr words, mkWorld [] (draw_calls 2 3))
      ∧ str_split c "dog cat dog" = words.
Proof.
  assert (H1 : 2 ≤ 3) by lia.
  assert (H2 : PassPhraseGenerator.__init__ ["cat"; "dog"] Scripted " "
               = inr (PassPhraseGenerator.mk ["cat"; "dog"] Scripted " "))
    by reflexivity.
  assert (H3 : PassPhraseGenerator.get_phrase
                 (PassPhraseGenerator.mk ["cat"; "dog"] Scripted " ") 3
                 (mkWorld [1; 0; 1] [])
               = (inr (PassPhraseGenerator.mkPassPhraseResult "dog cat dog"
                         (IZR 3 * log2 (IZR (len ["cat"; "dog"])))%R true),
                  mkWorld [] (draw_calls 2 3))) by reflexivity.
  assert (H4 : true = true) by reflexivity.
  exact (conj H1 (conj H2 (conj H3 (conj H4
    (guaranteed_phrase_splits ["cat"; "dog"] Scripted " " _ 3 _ _ _
       H1 H2 H3 H4))))).
Defined.

Lemma password_characters_witness :
  PasswordGenerator.__init__ (str_iter "aabbcd") Scripted
  = inr (PasswordGenerator.mk (PasswordGenerator.sorted_set (str_iter "aabbcd"))
           Scripted)
  ∧ PasswordGenerator.generate
      (PasswordGenerator.mk (PasswordGenerator.sorted_set (str_iter "aabbcd"))
         Scripted) 5 (mkWorld [3; 0; 2; 2; -3] [])
    = (inr (PasswordGenerator.mkPasswordResult "daccb"
              (IZR 5 * log2 (IZR (len (PasswordGenerator.sorted_set
                                         (str_iter "aabbcd")))))%R),
       mkWorld [] (draw_calls 4 5))
  ∧ String.length "daccb" = Z.to_nat 5
  ∧ Forall (λ c, c ∈ str_iter "aabbcd") (str_iter "daccb").
Proof.
  assert (H1 : PasswordGenerator.__init__ (str_iter "aabbcd") Scripted
               = inr (PasswordGenerator.mk
                        (PasswordGenerator.sorted_set (str_iter "aabbcd"))
                        Scripted)) by reflexivity.
  assert (H2 : PasswordGenerator.generate
                 (PasswordGenerator.mk
                    (PasswordGenerator.sorted_set (str_iter "aabbcd"))
                    Scripted) 5 (mkWorld [3; 0; 2; 2; -3] [])
               = (inr (PasswordGenerator.mkPasswordResult "daccb"
                         (IZR 5 * log2 (IZR (len (PasswordGenerator.sorted_set
                                                    (str_iter "aabbcd")))))%R),
                  mkWorld [] (draw_calls 4 5))) by reflexivity.
  exact (conj H1 (conj H2
    (password_characters (str_iter "aabbcd") Scripted _ 5 _ _ _ H1 H2))).
Defined.

Lemma generate_draw_count_witness :
  PasswordGenerator.__init__ (str_iter "aabbcd") Scripted
  = inr (PasswordGenerator.mk (PasswordGenerator.sorted_set (str_iter "aabbcd"))
           Scripted)
  ∧ match PasswordGenerator.generate
            (PasswordGenerator.mk
               (PasswordGenerator.sorted_set (str_iter "aabbcd")) Scripted)
            5 (mkWorld [3; 0; 7] []) with
    | (inr _, w') =>
        calls w' = [] ++ draw_calls
                           (len (PasswordGenerator.sorted_set (str_iter "aabbcd")))
                           (Z.to_nat 5)
    | (inl _, w') =>
        ∃ k, (k < Z.to_nat 5)%nat
          ∧ calls w' = [] ++ draw_calls
                               (len (PasswordGenerator.sorted_set
                                       (str_iter "aabbcd"))) (S k)
    end.
Proof.
  assert (H1 : PasswordGenerator.__init__ (str_iter "aabbcd") Scripted
               = inr (PasswordGenerator.mk
                        (PasswordGenerator.sorted_set (str_iter "aabbcd"))
                        Scripted)) by reflexivity.
  exact (conj H1
    (generate_draw_count (str_iter "aabbcd") Scripted _ 5
       (mkWorld [3; 0; 7] []) H1)).
Defined.

Lemma duplicates_do_not_count_witness :
  PasswordGenerator.__init__ (str_iter "aabbcd") Scripted
  = inr (PasswordGenerator.mk (PasswordGenerator.sorted_set (str_iter "aabbcd"))
           Scripted)
  ∧ 1 ≤ len (PasswordGenerator.sorted_set (str_iter "aabbcd"))
      ≤ len (str_iter "aabbcd")
  ∧ (len (PasswordGenerator.sorted_set (str_iter "aabbcd"))
     = len (str_iter "aabbcd") ↔ NoDup (str_iter "aabbcd"))
  ∧ ∀ length (w w' : World (list Z)) result,
      0 ≤ length →
      PasswordGenerator.generate
        (PasswordGenerator.mk (PasswordGenerator.sorted_set (str_iter "aabbcd"))
           Scripted) length w = (inr result, w') →
      (0 <= PasswordGenerator.entropy result
       <= IZR length * log2 (IZR (len (str_iter "aabbcd"))))%R.
Proof.
  assert (H1 : PasswordGenerator.__init__ (str_iter "aabbcd") Scripted
               = inr (PasswordGenerator.mk
                        (PasswordGenerator.sorted_set (str_iter "aabbcd"))
                        Scripted)) by reflexivity.
  exact (conj H1
    (duplicates_do_not_count (Src := list Z) (str_iter "aabbcd") Scripted _ H1)).
Defined.

Lemma init_from_own_alphabet_witness :
  PasswordGenerator.__init__ (str_iter "dcbaab") Scripted
  = inr (PasswordGenerator.mk (PasswordGenerator.sorted_set (str_iter "dcbaab"))
           Scripted)
  ∧ PasswordGenerator.__init__
      (PasswordGenerator.sorted_set (str_iter "dcbaab")) Scripted
    = inr (PasswordGenerator.mk (PasswordGenerator.sorted_set (str_iter "dcbaab"))
             Scripted).
Proof.
  assert (H1 : PasswordGenerator.__init__ (str_iter "dcbaab") Scripted
               = inr (PasswordGenerator.mk
                        (PasswordGenerator.sorted_set (str_iter "dcbaab"))
                        Scripted)) by reflexivity.
  exact (conj H1 (init_from_own_alphabet (str_iter "dcbaab") Scripted _ H1)).
Defined.


Lemma pw_password_avoids_excluded_witness :
  CommandLine.pw_try scripted_new (λ names, inr (str_join "" names)) (Some 4)
    "system" 6 (Some "abc") (Some "xy,z") (Some "bz")
    (mkWorld [0; 1; 2; 3] [])
  = (inr (PasswordGenerator.mkPasswordResult "acxy"
            (IZR 4 * log2 (IZR (len (PasswordGenerator.sorted_set
                                       (str_iter "acxy")))))%R),
     mkWorld [] (draw_calls 4 4))
  ∧ ∃ n, Some 4 = Some n ∧ n ≠ 0
      ∧ String.length "acxy" = Z.to_nat n
      ∧ Forall (λ token, ∃ c, token = String c EmptyString
          ∧ (∀ excluded, Some "bz" = Some excluded →
                         char_occurs c excluded = false)
          ∧ ((∃ included, Some "abc" = Some included
                ∧ char_occurs c included = true)
             ∨ (∃ names preset, Some "xy,z" = Some names
                  ∧ inr (str_join "" (str_split ","%char names))
                    = (inr preset : PyError + string)
                  ∧ char_occurs c preset = true)))
          (str_iter "acxy").
Proof.
  assert (H1 : CommandLine.pw_try scripted_new (λ names, inr (str_join "" names))
                 (Some 4) "system" 6 (Some "abc") (Some "xy,z") (Some "bz")
                 (mkWorld [0; 1; 2; 3] [])
               = (inr (PasswordGenerator.mkPasswordResult "acxy"
                         (IZR 4 * log2 (IZR (len (PasswordGenerator.sorted_set
                                                    (str_iter "acxy")))))%R),
                  mkWorld [] (draw_calls 4 4))) by reflexivity.
  exact (conj H1
    (pw_password_avoids_excluded scripted_new (λ names, inr (str_join "" names))
       (Some 4) "system" 6 (Some "abc") (Some "xy,z") (Some "bz") _ _ _ H1)).
Defined.


Lemma randbelow_uses_accepted_batch_witness :
  0 < 31
  ∧ Dice.compute_dice_frame 6 31 (99 # 100) = Some (Dice.mkDiceFrame 5 7750)
  ∧ Forall (λ b, Dice.upper_multiple (Dice.mkDiceFrame 5 7750)
                 ≤ Dice.rolls_to_value 6 b) [[6; 6; 6; 6; 6]]
  ∧ Dice.valid_batch 6 (Dice.required_num_rolls (Dice.mkDiceFrame 5 7750))
      [2; 3; 2; 3; 1] = true
  ∧ Dice.rolls_to_value 6 [2; 3; 2; 3; 1]
    < Dice.upper_multiple (Dice.mkDiceFrame 5 7750)
  ∧ ∃ value,
      Dice.DiceRng_randbelow (Dice.mkDiceRng 6 (99 # 100)) 31
        ([[6; 6; 6; 6; 6]] ++ [[2; 3; 2; 3; 1]]) = (Some value, [])
      ∧ value = Dice.rolls_to_value 6 [2; 3; 2; 3; 1] `mod` 31
      ∧ 0 ≤ value < 31.
Proof.
  assert (H1 : 0 < 31) by lia.
  assert (H2 : Dice.compute_dice_frame 6 31 (99 # 100)
               = Some (Dice.mkDiceFrame 5 7750)) by (by vm_compute).
  assert (H3 : Forall (λ b, Dice.upper_multiple (Dice.mkDiceFrame 5 7750)
                            ≤ Dice.rolls_to_value 6 b) [[6; 6; 6; 6; 6]]).
  { constructor; [|constructor]. by vm_compute. }
  assert (H4 : Dice.valid_batch 6
                 (Dice.required_num_rolls (Dice.mkDiceFrame 5 7750))
                 [2; 3; 2; 3; 1] = true) by reflexivity.
  assert (H5 : Dice.rolls_to_value 6 [2; 3; 2; 3; 1]
               < Dice.upper_multiple (Dice.mkDiceFrame 5 7750))
    by (by vm_compute).
  exact (conj H1 (conj H2 (conj H3 (conj H4 (conj H5
    (randbelow_uses_accepted_batch 6 31 (99 # 100) _ [[6; 6; 6; 6; 6]]
       [2; 3; 2; 3; 1] H1 H2 H3 H4 H5)))))).
Defined.

Section GuaranteeMonotone.
Import PassPhraseGenerator.
Context {Rng : Type}.

Lemma guaranteed_delimiter_length (wordlist : list string) (rng : Rng)
    (delimiter : string) (count : Z) (flag : bool) :
  _entropy_is_guaranteed (mk wordlist rng delimiter) count = inr flag →
  (String.length delimiter ≤ 1)%nat.
Proof.
  unfold _entropy_is_guaranteed, py_assert. simpl.
  case_bool_decide; [done|]. simpl. done.
Qed.

(** X19.  A guarantee survives a shorter phrase and a smaller wordlist: when
    [_entropy_is_guaranteed] answers true for a wordlist and a count, it
    answers true for every count below and every wordlist whose words are
    among the given ones. *)
Theorem guarantee_survives_shrinking
    (wordlist wordlist' : list string) (rng : Rng) (delimiter : string)
    (count count' : Z) :
  _entropy_is_guaranteed (mk wordlist rng delimiter) count = inr true →
  (∀ word, word ∈ wordlist' → word ∈ wordlist) → count' ≤ count →
  _entropy_is_guaranteed (mk wordlist' rng delimiter) count' = inr true.
Proof.
  intros Hflag Hsub Hcount.
  pose proof (guaranteed_delimiter_length _ _ _ _ _ Hflag) as Hlen.
  rewrite entropy_is_guaranteed_eq in Hflag |- * by done.
  injection Hflag as Hflag. f_equal. unfold entropyIsGuaranteed in *.
  destruct (count' <=? 1) eqn:Hsmall; [done|]. apply Z.leb_gt in Hsmall.
  rewrite (proj2 (Z.leb_gt count 1)) in Hflag by lia.
  destruct delimiter as [|c rest]; [done|].
  destruct (existsb (char_occurs c) wordlist) eqn:Hex; [done|].
  destruct (existsb (char_occurs c) wordlist') eqn:Hex'; [|done].
  apply existsb_exists in Hex' as (word & Hword & Hocc).
  assert (existsb (char_occurs c) wordlist = true); [|congruence].
  apply existsb_exists. exists word. split; [|done].
  by apply list_elem_of_In, Hsub, list_elem_of_In.
Qed.

End GuaranteeMonotone.

Lemma guarantee_survives_shrinking_witness :
  PassPhraseGenerator._entropy_is_guaranteed
    (PassPhraseGenerator.mk ["cat"; "dog"; "emu"] Scripted "-") 4 = inr true
  ∧ (∀ word, word ∈ ["emu"; "cat"] → word ∈ ["cat"; "dog"; "emu"])
  ∧ 3 ≤ 4
  ∧ PassPhraseGenerator._entropy_is_guaranteed
      (PassPhraseGenerator.mk ["emu"; "cat"] Scripted "-") 3 = inr true.
Proof.
  assert (H1 : PassPhraseGenerator._entropy_is_guaranteed
                 (PassPhraseGenerator.mk ["cat"; "dog"; "emu"] Scripted "-") 4
               = inr true) by (by vm_compute).
  assert (H2 : ∀ word, word ∈ ["emu"; "cat"] → word ∈ ["cat"; "dog"; "emu"]).
  { intros word. rewrite !elem_of_cons, !elem_of_nil. tauto. }
  assert (H3 : 3 ≤ 4) by lia.
  exact (conj H1 (conj H2 (conj H3
    (guarantee_survives_shrinking ["cat"; "dog"; "emu"] ["emu"; "cat"]
       Scripted "-" 4 3 H1 H2 H3)))).
Defined.
